(** * aiida-phonopy: the calculation adapter and the phonon workchain

    A shallow embedding of
    - [aiida_phonopy/calcs/base.py]      (module [Base]),
    - [aiida_phonopy/workchains/phonon.py] (module [Phonon]),
    - [examples/workchains/generate_launchfile_thermal.py]
      (module [Launchfile]),
    and the properties of them that the specification states, followed in
    each module by further properties of the same code.

    Python exceptions are values of [exn]; a method that may raise returns a
    [result].  Dictionaries are [gmap string _]. *)

From Stdlib Require Import ZArith.
From stdpp Require Import base option list gmap strings pretty.

Open Scope string_scope.
Open Scope list_scope.
Set Warnings "-register-all".

(** ** Exceptions and results *)

Inductive exn :=
| RuntimeError (msg : string)
| TypeError (msg : string)
| ValueError (msg : string)
| AttributeError (name : string)
| KeyError (key : string)
| NotExistent (msg : string)
| NotImplementedError.

Inductive result (A : Type) :=
| Ok (a : A)
| Raise (e : exn).
Arguments Ok {A} a.
Arguments Raise {A} e.

Definition result_bind {A B} (f : A → result B) (m : result A) : result B :=
  match m with
  | Ok a => f a
  | Raise e => Raise e
  end.

#[global] Instance result_ret : MRet result := λ A a, Ok a.
#[global] Instance result_mbind : MBind result := λ A B f m, result_bind f m.

Definition is_Ok {A} (r : result A) : Prop := ∃ a, r = Ok a.

(** [d[k]] on a dictionary: [KeyError] when the key is missing. *)
Definition getitem {V} (d : gmap string V) (k : string) : result V :=
  match d !! k with
  | Some v => Ok v
  | None => Raise (KeyError k)
  end.

(** [o.name] on an object whose attribute may be unset. *)
Definition getattr {V} (o : option V) (name : string) : result V :=
  match o with
  | Some v => Ok v
  | None => Raise (AttributeError name)
  end.

Lemma bind_Ok {A B} (m : result A) (f : A → result B) (b : B) :
  m ≫= f = Ok b ↔ ∃ a, m = Ok a ∧ f a = Ok b.
Proof.
  destruct m as [a|e]; simpl; split; eauto.
  - intros (a' & [= <-] & H). exact H.
  - intros [=].
  - intros (a' & [=] & _).
Qed.

(** Takes apart a hypothesis saying that monadic code returned. *)
Ltac inv_result :=
  repeat match goal with
  | H : _ ≫= _ = Ok _ |- _ =>
      let a := fresh "a" in
      let Ha := fresh "Ha" in
      apply bind_Ok in H as (a & Ha & H)
  | H : Raise _ = Ok _ |- _ => discriminate H
  | H : Ok _ = Ok _ |- _ => injection H as H; try subst
  | H : match ?x with _ => _ end = Ok _ |- _ => destruct x eqn:?
  end.

(** Membership of a given name in a given list of names, by computation. *)
Ltac elem := apply (bool_decide_unpack _); vm_compute; exact I.
Ltac not_elem H :=
  exfalso; revert H; refine (bool_decide_eq_false_1 _ _); vm_compute;
  reflexivity.

(** ** calcs/base.py *)

Module Base.

Section BasePhonopyCalculation.

(** Nodes whose content this class never inspects ([StructureData],
    [ArrayData]), and the values of the attributes of a [Dict] node. *)
Variable Node : Type.
Variable attr : Type.

(** [aiida_phonopy.common.file_generators.get_BORN_txt] is imported, not
    defined, by this file: it is a parameter here. *)
Variable get_BORN_txt : Node → Node → attr → string.

(** [self.inputs], [self.uuid] and [self.options.output_filename]. An
    optional input port that was not given is [None]. *)
Record Inputs := {
  settings : gmap string attr;
  structure : Node;
  fc_only : bool;
  force_sets : option Node;
  dataset : option Node;
  nac_params : option Node;
  primitive : option Node;
  code_uuid : string;
}.

Record CalcJob := {
  uuid : string;
  inputs : Inputs;
  output_filename : string;
}.

(** The three attributes that [prepare_for_submission] resets and
    [_create_additional_files] fills.  [_calculation_cmd] and
    [_additional_cmd_params] are lists of list objects; the inner lists of
    [_additional_cmd_params] are mutated in place by [params.append], so
    they live in [heap] and the two attributes hold references (indices)
    into it: two entries that are the same Python object are the same
    index. *)
Record Attrs := {
  heap : list (list string);
  _internal_retrieve_list : list string;
  _additional_cmd_params : list nat;
  _calculation_cmd : list nat;
}.

(** The job folder: file name to text written. *)
Abbreviation Folder := (gmap string string).

Definition _INPUT_NAC : string := "BORN".

(** [_create_additional_files] is abstract in this class (see
    [_create_additional_files_base]); subclasses override it. *)
Variable _create_additional_files :
  CalcJob → Attrs → Folder → result (Attrs * Folder).

Definition _create_additional_files_base
    (self : CalcJob) (a : Attrs) (folder : Folder) : result (Attrs * Folder) :=
  Raise NotImplementedError.

Record CodeInfo := {
  cmdline_params : list string;
  ci_code_uuid : string;
  stdout_name : string;
  withmpi : bool;
}.

Record CalcInfo := {
  ci_uuid : string;
  local_copy_list : list (string * string * string);
  remote_copy_list : list (string * string * string);
  retrieve_list : list string;
  codes_info : list CodeInfo;
}.

(** [params.append('--nac')] on the list object [r]. *)
Definition append_nac (h : list (list string)) (r : nat) : list (list string) :=
  alter (λ params, params ++ ["--nac"]) r h.

(** [for params in self._additional_cmd_params: params.append('--nac')] *)
Definition append_nac_all (a : Attrs) : Attrs :=
  {| heap := foldl append_nac (heap a) (_additional_cmd_params a);
     _internal_retrieve_list := _internal_retrieve_list a;
     _additional_cmd_params := _additional_cmd_params a;
     _calculation_cmd := _calculation_cmd a |}.

(** The condition of the [if] at lines 71-74. *)
Definition nac_condition (i : Inputs) : bool :=
  negb (fc_only i)
  && bool_decide (is_Some (nac_params i))
  && bool_decide (is_Some (primitive i))
  && bool_decide (is_Some (settings i !! "symmetry_tolerance")).

(** Lines 71-82.  The [match] reads the three inputs that the branch
    passes to [get_BORN_txt]; it takes the first branch exactly when
    [nac_condition] holds ([write_born_true], [write_born_false]). *)
Definition write_born (self : CalcJob) (a : Attrs) (folder : Folder)
    : Attrs * Folder :=
  let i := inputs self in
  match fc_only i, nac_params i, primitive i,
        settings i !! "symmetry_tolerance" with
  | false, Some nac, Some prim, Some tol =>
      let born_txt := get_BORN_txt nac prim tol in
      (append_nac_all a, <[_INPUT_NAC := born_txt]> folder)
  | _, _, _, _ => (a, folder)
  end.

(** Lines 95-104: [enumerate(zip(...))]. *)
Definition make_codes_info (self : CalcJob) (a : Attrs) : list CodeInfo :=
  imap (λ i '(default_params, additional_params),
          {| cmdline_params :=
               heap a !!! default_params ++ heap a !!! additional_params;
             ci_code_uuid := code_uuid (inputs self);
             stdout_name := output_filename self +:+ pretty (i + 1);
             withmpi := false |})
       (zip (_calculation_cmd a) (_additional_cmd_params a)).

Definition prepare_for_submission (self : CalcJob) (folder : Folder)
    : result (CalcInfo * Attrs * Folder) :=
  let a0 := {| heap := []; _internal_retrieve_list := [];
               _additional_cmd_params := []; _calculation_cmd := [] |} in
  '(a, folder) ← _create_additional_files self a0 folder;
  let '(a, folder) := write_born self a folder in
  let calcinfo :=
    {| ci_uuid := uuid self;
       local_copy_list := [];
       remote_copy_list := [];
       retrieve_list := _internal_retrieve_list a;
       codes_info := make_codes_info self a |} in
  mret (calcinfo, a, folder).


(** *** Facts about [prepare_for_submission] *)

(** The inputs for which the [if] at lines 71-74 takes its branch. *)
Definition nac_requested (i : Inputs) : Prop :=
  fc_only i = false ∧ is_Some (nac_params i) ∧ is_Some (primitive i)
  ∧ is_Some (settings i !! "symmetry_tolerance").

Lemma nac_condition_spec i : nac_condition i = true ↔ nac_requested i.
Proof.
  unfold nac_condition, nac_requested.
  rewrite !andb_true_iff, negb_true_iff, !bool_decide_eq_true. tauto.
Qed.

Lemma write_born_true self a folder :
  nac_requested (inputs self) →
  ∃ nac prim tol,
    nac_params (inputs self) = Some nac ∧ primitive (inputs self) = Some prim
    ∧ settings (inputs self) !! "symmetry_tolerance" = Some tol
    ∧ write_born self a folder
      = (append_nac_all a, <["BORN" := get_BORN_txt nac prim tol]> folder).
Proof.
  intros (Hfc & [nac Hn] & [prim Hp] & [tol Ht]).
  exists nac, prim, tol. unfold write_born. rewrite Hfc, Hn, Hp, Ht. done.
Qed.

Lemma write_born_false self a folder :
  ¬ nac_requested (inputs self) → write_born self a folder = (a, folder).
Proof.
  unfold nac_requested, write_born. intros H.
  destruct (fc_only (inputs self)); [done|].
  destruct (nac_params (inputs self)); [|done].
  destruct (primitive (inputs self)); [|done].
  destruct (settings (inputs self) !! "symmetry_tolerance") eqn:E; [|done].
  destruct H. rewrite ?E. eauto.
Qed.

(** How often the loop at lines 81-82 visits the list object [r]. *)
Definition visits (r : nat) (refs : list nat) : nat :=
  length (filter (λ x, x = r) refs).

Lemma append_nac_length h r : length (append_nac h r) = length h.
Proof. apply length_alter. Qed.

Lemma foldl_append_nac_length refs h :
  length (foldl append_nac h refs) = length h.
Proof.
  revert h. induction refs as [|x refs IH]; intros h; simpl; [done|].
  by rewrite IH, append_nac_length.
Qed.

(** Every visit appends one ['--nac'] to the object, and nothing else
    changes: an object listed twice gets the flag twice. *)
Lemma foldl_append_nac_lookup refs h r :
  r < length h →
  foldl append_nac h refs !!! r = h !!! r ++ replicate (visits r refs) "--nac".
Proof.
  revert h. induction refs as [|x refs IH]; intros h Hr; simpl.
  - by rewrite app_nil_r.
  - rewrite IH by by rewrite append_nac_length.
    unfold visits. rewrite filter_cons. unfold append_nac at 1.
    destruct (decide (x = r)) as [->|Hne]; simpl.
    + rewrite list_lookup_total_alter_eq by done. by rewrite <- app_assoc.
    + by rewrite list_lookup_total_alter_ne.
Qed.

Lemma visits_elem_of r refs : r ∈ refs → 0 < visits r refs.
Proof.
  intros H. unfold visits.
  assert (r ∈ filter (λ x, x = r) refs) as Hin by (by apply list_elem_of_filter).
  destruct (filter (λ x, x = r) refs); [by apply not_elem_of_nil in Hin|simpl; lia].
Qed.

Lemma visits_not_elem_of r refs : r ∉ refs → visits r refs = 0.
Proof.
  intros H. unfold visits.
  destruct (filter (λ x, x = r) refs) as [|y l] eqn:E; [done|].
  assert (y ∈ filter (λ x, x = r) refs) as Hin by (rewrite E; left).
  apply list_elem_of_filter in Hin as [-> ?]. done.
Qed.

Lemma make_codes_info_lookup self a i c :
  make_codes_info self a !! i = Some c ↔
  ∃ d p, _calculation_cmd a !! i = Some d ∧ _additional_cmd_params a !! i = Some p
    ∧ c = {| cmdline_params := heap a !!! d ++ heap a !!! p;
             ci_code_uuid := code_uuid (inputs self);
             stdout_name := output_filename self +:+ pretty (i + 1);
             withmpi := false |}.
Proof.
  unfold make_codes_info. rewrite list_lookup_imap.
  destruct (zip _ _ !! i) as [[d p]|] eqn:E; simpl.
  - apply lookup_zip_with_Some in E as (d' & p' & [= <- <-] & Hd & Hp).
    split.
    + intros [= <-]. eauto.
    + intros (d0 & p0 & Hd0 & Hp0 & ->). by simplify_eq.
  - split; [done|]. intros (d & p & Hd & Hp & _).
    apply lookup_zip_with_None in E as [E|E]; congruence.
Qed.

Lemma prepare_for_submission_unfold self folder a1 folder1 :
  _create_additional_files self
    {| heap := []; _internal_retrieve_list := [];
       _additional_cmd_params := []; _calculation_cmd := [] |} folder
    = Ok (a1, folder1) →
  prepare_for_submission self folder =
    Ok ({| ci_uuid := uuid self; local_copy_list := []; remote_copy_list := [];
           retrieve_list := _internal_retrieve_list (write_born self a1 folder1).1;
           codes_info := make_codes_info self (write_born self a1 folder1).1 |},
        (write_born self a1 folder1).1, (write_born self a1 folder1).2).
Proof.
  intros H. unfold prepare_for_submission. rewrite H. simpl.
  by destruct (write_born self a1 folder1).
Qed.

Lemma prepare_for_submission_inv self folder ci a folder' :
  prepare_for_submission self folder = Ok (ci, a, folder') →
  ∃ a1 folder1,
    _create_additional_files self
      {| heap := []; _internal_retrieve_list := [];
         _additional_cmd_params := []; _calculation_cmd := [] |} folder
      = Ok (a1, folder1)
    ∧ (a, folder') = write_born self a1 folder1
    ∧ ci = {| ci_uuid := uuid self; local_copy_list := [];
              remote_copy_list := [];
              retrieve_list := _internal_retrieve_list a;
              codes_info := make_codes_info self a |}.
Proof.
  unfold prepare_for_submission.
  destruct (_create_additional_files _ _ _) as [[a1 folder1]|e] eqn:E;
    simpl; [|done].
  destruct (write_born self a1 folder1) as [a2 folder2] eqn:Ew.
  intros [= <- <- <-]. by exists a1, folder1.
Qed.

(** C10: the [CalcInfo] that [prepare_for_submission] returns has empty
    [local_copy_list] and [remote_copy_list]; it has one [CodeInfo] per pair of
    [zip(self._calculation_cmd, self._additional_cmd_params)], so as many as
    the shorter of the two lists; and the [i]-th [CodeInfo] has as
    [cmdline_params] the [i]-th default parameters followed by the [i]-th
    additional parameters, as [stdout_name] the output file name followed by
    [i + 1] in decimal, and [withmpi] false. *)
Theorem prepare_for_submission_calcinfo self folder ci a folder' :
  prepare_for_submission self folder = Ok (ci, a, folder') →
  local_copy_list ci = [] ∧ remote_copy_list ci = []
  ∧ length (codes_info ci)
    = length (_calculation_cmd a) `min` length (_additional_cmd_params a)
  ∧ ∀ i, i < length (codes_info ci) →
      ∃ c default_params additional_params,
        codes_info ci !! i = Some c
        ∧ _calculation_cmd a !! i = Some default_params
        ∧ _additional_cmd_params a !! i = Some additional_params
        ∧ cmdline_params c
          = heap a !!! default_params ++ heap a !!! additional_params
        ∧ stdout_name c = output_filename self +:+ pretty (i + 1)
        ∧ withmpi c = false.
Proof.
  intros H. apply prepare_for_submission_inv in H as (a1 & f1 & _ & _ & ->).
  simpl. repeat split.
  - unfold make_codes_info. by rewrite length_imap, length_zip.
  - intros i Hi. apply lookup_lt_is_Some_2 in Hi as [c Hc].
    pose proof Hc as Hc'.
    apply make_codes_info_lookup in Hc' as (d & p & Hd & Hp & ->).
    eexists _, d, p. by repeat split.
Qed.

(** C1: when [_create_additional_files] has returned, has left no [BORN] file
    and no ['--nac'] in the parameter lists it set up, then
    [prepare_for_submission] returns, and: the job folder holds a [BORN] file
    if and only if [fc_only] is false, [nac_params] and [primitive] are among
    the inputs and ['symmetry_tolerance'] is a key of the settings; in that
    case the file holds the text of [get_BORN_txt], every additional parameter
    list has ['--nac'] appended (once per time the loop visits it, at least
    once) and the command line of every [CodeInfo] ends in ['--nac']; in every
    other case the attributes and the folder are as [_create_additional_files]
    left them and no command line contains ['--nac']. *)
Theorem prepare_for_submission_nac self folder a1 folder1 :
  _create_additional_files self
    {| heap := []; _internal_retrieve_list := [];
       _additional_cmd_params := []; _calculation_cmd := [] |} folder
    = Ok (a1, folder1) →
  folder1 !! "BORN" = None →
  (∀ r, r ∈ _calculation_cmd a1 ++ _additional_cmd_params a1 →
        "--nac" ∉ heap a1 !!! r) →
  (∀ r, r ∈ _additional_cmd_params a1 → r < length (heap a1)) →
  ∃ ci a folder',
    prepare_for_submission self folder = Ok (ci, a, folder')
    ∧ (is_Some (folder' !! "BORN") ↔ nac_requested (inputs self))
    ∧ (nac_requested (inputs self) →
         (∃ nac prim tol,
            nac_params (inputs self) = Some nac
            ∧ primitive (inputs self) = Some prim
            ∧ settings (inputs self) !! "symmetry_tolerance" = Some tol
            ∧ folder' = <["BORN" := get_BORN_txt nac prim tol]> folder1)
         ∧ _additional_cmd_params a = _additional_cmd_params a1
         ∧ _calculation_cmd a = _calculation_cmd a1
         ∧ (∀ r, r ∈ _additional_cmd_params a →
              ∃ n, heap a !!! r = heap a1 !!! r ++ replicate (S n) "--nac")
         ∧ (∀ c, c ∈ codes_info ci →
              ∃ params, cmdline_params c = params ++ ["--nac"]))
    ∧ (¬ nac_requested (inputs self) →
         a = a1 ∧ folder' = folder1
         ∧ ∀ c, c ∈ codes_info ci → "--nac" ∉ cmdline_params c).
Proof.
  intros Hhook Hborn Hfresh Hvalid.
  rewrite (prepare_for_submission_unfold _ _ _ _ Hhook).
  eexists _, _, _. split; [done|]. simpl.
  assert (Happ : nac_requested (inputs self) →
            ∀ r, r ∈ _additional_cmd_params a1 →
              ∃ n, heap (append_nac_all a1) !!! r
                   = heap a1 !!! r ++ replicate (S n) "--nac").
  { intros _ r Hr. simpl. rewrite foldl_append_nac_lookup by auto.
    apply visits_elem_of in Hr.
    destruct (visits r (_additional_cmd_params a1)) as [|n]; [lia|]. eauto. }
  split; [|split].
  - split.
    + intros Hsome. destruct (decide (nac_requested (inputs self))); [done|].
      rewrite write_born_false in Hsome by done. simpl in Hsome.
      rewrite Hborn in Hsome. by destruct Hsome.
    + intros Hreq.
      destruct (write_born_true self a1 folder1 Hreq)
        as (nac & prim & tol & _ & _ & _ & ->).
      simpl. rewrite lookup_insert_eq. eauto.
  - intros Hreq.
    destruct (write_born_true self a1 folder1 Hreq)
      as (nac & prim & tol & Hn & Hp & Ht & ->).
    simpl. repeat split; [by eauto 10|by auto|].
    intros c [i Hc]%list_elem_of_lookup.
    apply make_codes_info_lookup in Hc as (d & p & Hd & Hp' & ->). simpl.
    destruct (Happ Hreq p) as [n Hn'].
    { apply list_elem_of_lookup. eauto. }
    change (heap (append_nac_all a1)) with
      (foldl append_nac (heap a1) (_additional_cmd_params a1)) in Hn'.
    rewrite Hn', replicate_S_end. eexists. by rewrite !app_assoc.
  - intros Hreq. rewrite write_born_false by done. simpl.
    repeat split.
    intros c [i Hc]%list_elem_of_lookup.
    apply make_codes_info_lookup in Hc as (d & p & Hd & Hp & ->). simpl.
    rewrite elem_of_app. intros [Hin|Hin].
    + apply (Hfresh d); [|done]. apply elem_of_app. left.
      apply list_elem_of_lookup. eauto.
    + apply (Hfresh p); [|done]. apply elem_of_app. right.
      apply list_elem_of_lookup. eauto.
Qed.

(** *** More about [prepare_for_submission] *)

(** X2: the files that [_create_additional_files] wrote are still there
    afterwards, with their contents: [BORN] is the only file that
    [prepare_for_submission] itself may write (over one of that name, if
    the hook wrote one). *)
Theorem prepare_for_submission_folder_frame self folder ci a folder' a1 folder1 :
  _create_additional_files self
    {| heap := []; _internal_retrieve_list := [];
       _additional_cmd_params := []; _calculation_cmd := [] |} folder
    = Ok (a1, folder1) →
  prepare_for_submission self folder = Ok (ci, a, folder') →
  ∀ name, name ≠ "BORN" → folder' !! name = folder1 !! name.
Proof.
  intros Hhook H name Hname.
  rewrite (prepare_for_submission_unfold _ _ _ _ Hhook) in H.
  injection H as _ _ <-.
  destruct (decide (nac_requested (inputs self))) as [Hreq|Hreq].
  - destruct (write_born_true self a1 folder1 Hreq)
      as (nac & prim & tol & _ & _ & _ & ->).
    simpl. by rewrite lookup_insert_ne.
  - by rewrite write_born_false.
Qed.

(** X3: the [CalcInfo] carries the uuid of the job and, as retrieve list, the
    list that [_create_additional_files] set; every [CodeInfo] carries the
    uuid of the code input.  The ['--nac'] step changes none of the three. *)
Theorem prepare_for_submission_identity self folder ci a folder' a1 folder1 :
  _create_additional_files self
    {| heap := []; _internal_retrieve_list := [];
       _additional_cmd_params := []; _calculation_cmd := [] |} folder
    = Ok (a1, folder1) →
  prepare_for_submission self folder = Ok (ci, a, folder') →
  ci_uuid ci = uuid self
  ∧ retrieve_list ci = _internal_retrieve_list a1
  ∧ ∀ c, c ∈ codes_info ci → ci_code_uuid c = code_uuid (inputs self).
Proof.
  intros Hhook H.
  rewrite (prepare_for_submission_unfold _ _ _ _ Hhook) in H.
  injection H as <- _ _. simpl. split; [done|]. split.
  - destruct (decide (nac_requested (inputs self))) as [Hreq|Hreq].
    + by destruct (write_born_true self a1 folder1 Hreq)
        as (nac & prim & tol & _ & _ & _ & ->).
    + by rewrite write_born_false.
  - intros c [i Hc]%list_elem_of_lookup.
    by apply make_codes_info_lookup in Hc as (d & p & _ & _ & ->).
Qed.

(** X4: no two commands of a job write their standard output to the same
    file. *)
Theorem prepare_for_submission_stdout_distinct self folder ci a folder' :
  prepare_for_submission self folder = Ok (ci, a, folder') →
  NoDup (stdout_name <$> codes_info ci).
Proof.
  intros H. apply prepare_for_submission_inv in H as (a1 & f1 & _ & _ & ->).
  simpl. apply NoDup_alt. intros i j name Hi Hj.
  apply list_lookup_fmap_Some in Hi as (ci & -> & Hci).
  apply list_lookup_fmap_Some in Hj as (cj & Heq & Hcj).
  simpl in Hci, Hcj.
  apply make_codes_info_lookup in Hci as (? & ? & _ & _ & ->).
  apply make_codes_info_lookup in Hcj as (? & ? & _ & _ & ->).
  simpl in Heq. apply String.app_inj in Heq.
  apply (inj pretty) in Heq. lia.
Qed.

(** X5: what the ['--nac'] step does to the list objects: an object gets the
    flag once for every time it is listed in [_additional_cmd_params], so an
    object listed twice gets it twice and an object that is not listed (a
    list of default parameters that is no list of additional parameters) is
    left as it was. *)
Theorem prepare_for_submission_nac_count self folder ci a folder' a1 folder1 :
  _create_additional_files self
    {| heap := []; _internal_retrieve_list := [];
       _additional_cmd_params := []; _calculation_cmd := [] |} folder
    = Ok (a1, folder1) →
  prepare_for_submission self folder = Ok (ci, a, folder') →
  nac_requested (inputs self) →
  length (heap a) = length (heap a1)
  ∧ ∀ r, r < length (heap a1) →
      heap a !!! r
      = heap a1 !!! r
        ++ replicate (length (filter (λ x, x = r) (_additional_cmd_params a1)))
             "--nac".
Proof.
  intros Hhook H Hreq.
  rewrite (prepare_for_submission_unfold _ _ _ _ Hhook) in H.
  injection H as _ <- _.
  destruct (write_born_true self a1 folder1 Hreq)
    as (nac & prim & tol & _ & _ & _ & ->).
  simpl. split; [apply foldl_append_nac_length|].
  intros r Hr. by apply foldl_append_nac_lookup.
Qed.

End BasePhonopyCalculation.

(** With the method of this class itself, [prepare_for_submission] raises
    [NotImplementedError]: the class is abstract. *)
Lemma prepare_for_submission_abstract Node attr born self folder :
  prepare_for_submission Node attr born
    (_create_additional_files_base Node attr) self folder
  = Raise NotImplementedError.
Proof. reflexivity. Qed.

(** *** A concrete subclass

    One command, with default parameters [-c phonopy_cells.yaml] and
    additional parameters [--writefc], in the manner of the calculation
    plugins that derive from this class. *)

Definition example_born (nac prim tol : string) : string :=
  "# BORN of " +:+ nac +:+ " in " +:+ prim +:+ " at " +:+ tol.

Definition example_create_additional_files
    (self : CalcJob string string) (a : Attrs) (folder : gmap string string)
    : result (Attrs * gmap string string) :=
  Ok ({| heap := [["-c"; "phonopy_cells.yaml"]; ["--writefc"]];
         _internal_retrieve_list := ["force_constants.hdf5"];
         _additional_cmd_params := [1];
         _calculation_cmd := [0] |},
      <["phonopy_cells.yaml" := "cells"]> folder).

Definition example_inputs (fc : bool) : Inputs string string :=
  {| settings := {["symmetry_tolerance" := "1e-05"]};
     structure := "unitcell";
     fc_only := fc;
     force_sets := None;
     dataset := None;
     nac_params := Some "nac";
     primitive := Some "primitive cell";
     code_uuid := "c0de" |}.

Definition example_calcjob (fc : bool) : CalcJob string string :=
  {| uuid := "ca1c"; inputs := example_inputs fc;
     output_filename := "phonopy.stdout" |}.

Example example_prepare_nac :
  prepare_for_submission string string example_born
    example_create_additional_files (example_calcjob false) ∅
  = Ok ({| ci_uuid := "ca1c"; local_copy_list := []; remote_copy_list := [];
           retrieve_list := ["force_constants.hdf5"];
           codes_info :=
             [{| cmdline_params := ["-c"; "phonopy_cells.yaml"; "--writefc"; "--nac"];
                 ci_code_uuid := "c0de";
                 stdout_name := "phonopy.stdout1";
                 withmpi := false |}] |},
        {| heap := [["-c"; "phonopy_cells.yaml"]; ["--writefc"; "--nac"]];
           _internal_retrieve_list := ["force_constants.hdf5"];
           _additional_cmd_params := [1];
           _calculation_cmd := [0] |},
        <["BORN" := "# BORN of nac in primitive cell at 1e-05"]>
          (<["phonopy_cells.yaml" := "cells"]> ∅)).
Proof. vm_compute. reflexivity. Qed.

Example example_prepare_fc_only :
  prepare_for_submission string string example_born
    example_create_additional_files (example_calcjob true) ∅
  = Ok ({| ci_uuid := "ca1c"; local_copy_list := []; remote_copy_list := [];
           retrieve_list := ["force_constants.hdf5"];
           codes_info :=
             [{| cmdline_params := ["-c"; "phonopy_cells.yaml"; "--writefc"];
                 ci_code_uuid := "c0de";
                 stdout_name := "phonopy.stdout1";
                 withmpi := false |}] |},
        {| heap := [["-c"; "phonopy_cells.yaml"]; ["--writefc"]];
           _internal_retrieve_list := ["force_constants.hdf5"];
           _additional_cmd_params := [1];
           _calculation_cmd := [0] |},
        <["phonopy_cells.yaml" := "cells"]> ∅).
Proof. vm_compute. reflexivity. Qed.

(** The same list object as default and as additional parameters of one
    command: the flag appended to it shows twice on the command line. *)
Example example_prepare_shared_list :
  ∃ ci a folder,
    prepare_for_submission string string example_born
      (λ _ _ folder,
         Ok ({| heap := [["--writefc"]]; _internal_retrieve_list := [];
                _additional_cmd_params := [0]; _calculation_cmd := [0] |},
             folder))
      (example_calcjob false) ∅ = Ok (ci, a, folder)
    ∧ cmdline_params <$> codes_info ci
      = [["--writefc"; "--nac"; "--writefc"; "--nac"]].
Proof. eexists _, _, _. split; vm_compute; reflexivity. Qed.


Lemma example_hook_fresh (r : nat) :
  r ∈ [0] ++ [1] →
  "--nac" ∉ [["-c"; "phonopy_cells.yaml"]; ["--writefc"]] !!! r.
Proof.
  intros Hr. apply elem_of_app in Hr as [Hr|Hr];
    apply list_elem_of_singleton in Hr as ->; simpl;
    intros Hin; repeat (apply elem_of_cons in Hin as [Hin|Hin]; [done|]);
    by apply not_elem_of_nil in Hin.
Qed.

Lemma prepare_for_submission_calcinfo_witness :
  ∃ ci a folder',
    prepare_for_submission string string example_born
      example_create_additional_files (example_calcjob false) ∅
    = Ok (ci, a, folder')
    ∧ local_copy_list ci = [] ∧ remote_copy_list ci = []
    ∧ length (codes_info ci)
      = length (_calculation_cmd a) `min` length (_additional_cmd_params a).
Proof.
  eexists _, _, _. split; [exact example_prepare_nac|].
  destruct (prepare_for_submission_calcinfo string string example_born
              example_create_additional_files (example_calcjob false) ∅
              _ _ _ example_prepare_nac) as (H1 & H2 & H3 & _).
  exact (conj H1 (conj H2 H3)).
Defined.

Lemma prepare_for_submission_nac_witness :
  ∃ ci a folder',
    prepare_for_submission string string example_born
      example_create_additional_files (example_calcjob false) ∅
    = Ok (ci, a, folder')
    ∧ (is_Some (folder' !! "BORN")
       ↔ nac_requested string string (inputs string string (example_calcjob false))).
Proof.
  destruct (prepare_for_submission_nac string string example_born
              example_create_additional_files (example_calcjob false) ∅
              _ _ eq_refl)
    as (ci & a & folder' & H & Hiff & _).
  - vm_compute. reflexivity.
  - exact example_hook_fresh.
  - intros r Hr. apply list_elem_of_singleton in Hr as ->. simpl. lia.
  - exists ci, a, folder'. exact (conj H Hiff).
Defined.

Lemma prepare_for_submission_folder_frame_witness :
  (<["BORN" := "# BORN of nac in primitive cell at 1e-05"]>
     (<["phonopy_cells.yaml" := "cells"]> ∅) : gmap string string)
    !! "phonopy_cells.yaml"
  = (<["phonopy_cells.yaml" := "cells"]> ∅ : gmap string string)
      !! "phonopy_cells.yaml".
Proof.
  apply (prepare_for_submission_folder_frame string string example_born
           example_create_additional_files (example_calcjob false) ∅
           _ _ _ _ _ eq_refl example_prepare_nac).
  done.
Defined.

Lemma prepare_for_submission_identity_witness :
  ∃ ci a folder',
    prepare_for_submission string string example_born
      example_create_additional_files (example_calcjob false) ∅
    = Ok (ci, a, folder')
    ∧ ci_uuid ci = "ca1c" ∧ retrieve_list ci = ["force_constants.hdf5"].
Proof.
  eexists _, _, _. split; [exact example_prepare_nac|].
  destruct (prepare_for_submission_identity string string example_born
              example_create_additional_files (example_calcjob false) ∅
              _ _ _ _ _ eq_refl example_prepare_nac) as (H1 & H2 & _).
  exact (conj H1 H2).
Defined.

(** A subclass with two commands. *)
Definition example_two_commands
    (self : CalcJob string string) (a : Attrs) (folder : gmap string string)
    : result (Attrs * gmap string string) :=
  Ok ({| heap := [["-c"; "phonopy_cells.yaml"]; ["--writefc"]; ["--readfc"]];
         _internal_retrieve_list := [];
         _additional_cmd_params := [1; 2];
         _calculation_cmd := [0; 0] |}, folder).

Example example_prepare_two_commands :
  prepare_for_submission string string example_born example_two_commands
    (example_calcjob false) ∅
  = Ok ({| ci_uuid := "ca1c"; local_copy_list := []; remote_copy_list := [];
           retrieve_list := [];
           codes_info :=
             [{| cmdline_params := ["-c"; "phonopy_cells.yaml"; "--writefc"; "--nac"];
                 ci_code_uuid := "c0de";
                 stdout_name := "phonopy.stdout1";
                 withmpi := false |};
              {| cmdline_params := ["-c"; "phonopy_cells.yaml"; "--readfc"; "--nac"];
                 ci_code_uuid := "c0de";
                 stdout_name := "phonopy.stdout2";
                 withmpi := false |}] |},
        {| heap := [["-c"; "phonopy_cells.yaml"]; ["--writefc"; "--nac"];
                    ["--readfc"; "--nac"]];
           _internal_retrieve_list := [];
           _additional_cmd_params := [1; 2];
           _calculation_cmd := [0; 0] |},
        <["BORN" := "# BORN of nac in primitive cell at 1e-05"]> ∅).
Proof. vm_compute. reflexivity. Qed.

Lemma prepare_for_submission_stdout_distinct_witness :
  NoDup ["phonopy.stdout1"; "phonopy.stdout2"].
Proof.
  exact (prepare_for_submission_stdout_distinct string string example_born
           example_two_commands (example_calcjob false) ∅ _ _ _
           example_prepare_two_commands).
Defined.

Lemma example_nac_requested :
  nac_requested string string (inputs string string (example_calcjob false)).
Proof.
  split; [done|]. split; [by eexists|]. split; [by eexists|].
  eexists. vm_compute. reflexivity.
Qed.

Lemma prepare_for_submission_nac_count_witness :
  [["-c"; "phonopy_cells.yaml"]; ["--writefc"; "--nac"]; ["--readfc"; "--nac"]]
    !!! 0
  = [["-c"; "phonopy_cells.yaml"]; ["--writefc"]; ["--readfc"]] !!! 0
    ++ replicate (length (filter (λ x, x = 0) [1; 2])) "--nac".
Proof.
  destruct (prepare_for_submission_nac_count string string example_born
              example_two_commands (example_calcjob false) ∅ _ _ _ _ _
              eq_refl example_prepare_two_commands example_nac_requested)
    as [_ H].
  apply (H 0). simpl. lia.
Defined.

End Base.

(** ** workchains/phonon.py *)

Module Phonon.

Section PhononPhonopy.

(** Python's [float], with the conversion [float(n)] of an integer.  The
    workchain stores, converts and passes floats on; it computes nothing
    with them. *)
Context {float : Type}.
Variable float_of_int : Z → float.

(** AiiDA data nodes whose content the workchain never reads
    ([StructureData], the nodes made by the helpers of
    [aiida_phonopy.common.utils]), and phonopy's displacement dataset. *)
Context {Node : Type}.
Context {Dataset : Type}.

(** *** Python values and numpy arrays *)

(** What a [ParameterData] dictionary holds, and what [tolist] returns. *)
Inductive pyval :=
| PNone
| PBool (b : bool)
| PInt (n : Z)
| PFloat (x : float)
| PStr (s : string)
| PList (l : list pyval).

(** An array is its shape and its elements in row-major order; the dtype is
    an integer or a floating one (arrays of other dtypes are not modelled). *)
Inductive array_data :=
| IntData (l : list Z)
| FloatData (l : list float).

Record ndarray := {
  shape : list nat;
  data : array_data;
}.

(** [len(a.ravel())] *)
Definition size (a : ndarray) : nat :=
  match data a with
  | IntData l => length l
  | FloatData l => length l
  end.

(** [np.issubdtype(a.dtype, np.integer)] *)
Definition is_integer (a : ndarray) : bool :=
  match data a with
  | IntData _ => true
  | FloatData _ => false
  end.

(** The rows of the square matrix with [l] on its diagonal, one after the
    other. *)
Definition diag_matrix {A} (zero : A) (l : list A) : list A :=
  concat (imap (λ i x, <[i := x]> (replicate (length l) zero)) l).

(** The diagonal of the matrix of [cols] columns stored in [l]. *)
Definition diag_of {A} (rows cols : nat) (l : list A) : list A :=
  omap (λ i, l !! (i * cols + i)) (seq 0 (rows `min` cols)).

(** [np.diag(a)]: a matrix from a vector, the diagonal of a matrix, and
    [ValueError] for any other number of dimensions. *)
Definition np_diag (a : ndarray) : result ndarray :=
  match shape a with
  | [n] =>
      Ok {| shape := [n; n];
            data := match data a with
                    | IntData l => IntData (diag_matrix 0%Z l)
                    | FloatData l => FloatData (diag_matrix (float_of_int 0) l)
                    end |}
  | [rows; cols] =>
      Ok {| shape := [rows `min` cols];
            data := match data a with
                    | IntData l => IntData (diag_of rows cols l)
                    | FloatData l => FloatData (diag_of rows cols l)
                    end |}
  | _ => Raise (ValueError "Input must be 1- or 2-d.")
  end.

(** [np.array(a)]: a copy. *)
Definition np_array (a : ndarray) : ndarray := a.

(** [np.eye(3)] *)
Definition np_eye3 : ndarray :=
  {| shape := [3; 3];
     data := FloatData (diag_matrix (float_of_int 0) (replicate 3 (float_of_int 1))) |}.

(** [a.astype(float)] *)
Definition astype_float (a : ndarray) : ndarray :=
  {| shape := shape a;
     data := match data a with
             | IntData l => FloatData (float_of_int <$> l)
             | FloatData l => FloatData l
             end |}.

(** [n] consecutive blocks of [k] elements. *)
Fixpoint blocks {A} (n k : nat) (l : list A) : list (list A) :=
  match n with
  | 0 => []
  | S n => take k l :: blocks n k (drop k l)
  end.

(** Nested lists of the elements [l], following [shape]. *)
Fixpoint nest (shape : list nat) (l : list pyval) : pyval :=
  match shape with
  | [] => default PNone (head l)
  | n :: shape' => PList (nest shape' <$> blocks n (foldr Nat.mul 1 shape') l)
  end.

(** [a.tolist()] *)
Definition tolist (a : ndarray) : pyval :=
  nest (shape a)
       match data a with
       | IntData l => PInt <$> l
       | FloatData l => PFloat <$> l
       end.

(** *** Nodes, inputs and the state of the workchain *)

(** [ForceSetsData(data_sets=...)] after [set_forces(forces)]. *)
Record ForceSetsData := {
  fs_data_sets : Dataset;
  fs_forces : list ndarray;
}.

(** A data node: one whose content is not read here, a [ParameterData], an
    [ArrayData] (array name to array) or a [ForceSetsData]. *)
Inductive datanode :=
| DNode (n : Node)
| DParams (d : gmap string pyval)
| DArrays (a : gmap string ndarray)
| DForceSets (fs : ForceSetsData).

(** A finished calculation or workchain: its input and output links. *)
Record process := {
  proc_inputs : gmap string datanode;
  proc_outputs : gmap string datanode;
}.

(** The dictionary that [create_displacements] builds: the keys
    ['data_sets'], ['number_of_displacements'] and one ['structure_<i>'] per
    displaced supercell. *)
Record disp_dataset := {
  data_sets : Dataset;
  number_of_displacements : nat;
  structures : gmap string Node;
}.

(** The process builder of the remote phonopy calculation, with the
    attributes that [create_phonopy_builder] sets. *)
Record builder := {
  b_code : Node;
  b_structure : datanode;
  b_parameters : datanode;
  b_options : gmap string pyval;
  b_force_constants : option datanode;
  b_force_sets : option datanode;
  b_nac_data : option datanode;
  b_bands : option datanode;
}.

(** The values that the context [self.ctx] holds. *)
Inductive value :=
| VData (d : datanode)
| VProcess (p : process)
| VDisp (d : disp_dataset)
| VBuilder (b : builder).

(** [self.inputs]: the ports of [define]; an optional port without default
    that was not given is [None]. *)
Record Inputs := {
  in_structure : Node;
  in_cell_matrices : gmap string ndarray;
  in_calculator_settings : Node;
  in_code_string : option string;
  in_options : option (gmap string pyval);
  in_phonon_settings : option (gmap string pyval);
  in_is_nac : bool;
  in_optimize : bool;
  in_pressure : float;
  in_distance : float;
  in_symmetry_tolerance : float;
  in_run_phonopy : bool;
  in_remote_phonopy : bool;
}.

(** What the steps change: the context and the outputs attached with
    [self.out].  The inputs are not part of it: no step can change them. *)
Record State := {
  ctx : gmap string value;
  outputs : gmap string datanode;
}.

Definition initial : State := {| ctx := ∅; outputs := ∅ |}.

(** [self.ctx.<name> = v] *)
Definition set_ctx (name : string) (v : value) (w : State) : State :=
  {| ctx := <[name := v]> (ctx w); outputs := outputs w |}.

(** [self.out(label, d)] *)
Definition out (label : string) (d : datanode) (w : State) : State :=
  {| ctx := ctx w; outputs := <[label := d]> (outputs w) |}.

(** [self.ctx.<name>]: [AttributeError] when the context has no such entry. *)
Definition ctx_get (w : State) (name : string) : result value :=
  getattr (ctx w !! name) name.

(** The entry [name] of the context read as a data node, a process, the
    displacement dictionary or a builder.  Each entry is always written with
    one kind of value; reading it as another kind is the [AttributeError] or
    [TypeError] that the first use of the wrong object would raise. *)
Definition ctx_data (w : State) (name : string) : result datanode :=
  v ← ctx_get w name;
  match v with VData d => Ok d | _ => Raise (TypeError name) end.

Definition ctx_process (w : State) (name : string) : result process :=
  v ← ctx_get w name;
  match v with VProcess p => Ok p | _ => Raise (AttributeError name) end.

Definition ctx_disp (w : State) (name : string) : result disp_dataset :=
  v ← ctx_get w name;
  match v with VDisp d => Ok d | _ => Raise (TypeError name) end.

Definition ctx_builder (w : State) (name : string) : result builder :=
  v ← ctx_get w name;
  match v with VBuilder b => Ok b | _ => Raise (TypeError name) end.

(** [node.get_dict()] of a [ParameterData]. *)
Definition get_dict (d : datanode) : result (gmap string pyval) :=
  match d with DParams d => Ok d | _ => Raise (AttributeError "get_dict") end.

(** [node.out.<label>] and [node.inp.<label>]. *)
Definition node_out (p : process) (label : string) : result datanode :=
  getattr (proc_outputs p !! label) label.

Definition node_inp (p : process) (label : string) : result datanode :=
  getattr (proc_inputs p !! label) label.

(** ["structure_{}".format(i)] *)
Definition structure_label (i : nat) : string := "structure_" +:+ pretty i.

(** *** What the workchain calls and does not define

    The engine's [submit] (with [ToContext]: the step after sees the finished
    process), the input generator of [aiida_phonopy.common.generate_inputs],
    the helpers of [aiida_phonopy.common.utils], AiiDA's code lookup and
    phonopy itself are parameters. *)

(** [self.submit(OptimizeStructure, structure=, calculator_settings=,
    pressure=)], finished. *)
Variable submit_OptimizeStructure : Node → Node → float → process.

(** [Phonopy(structure, supercell_matrix, primitive_matrix, symprec)] and
    [generate_displacements(distance)]: the primitive cell, the displacement
    dataset and the supercells with displacements, as structures. *)
Variable phonopy_displacements :
  datanode → pyval → pyval → pyval → pyval → result (Node * Dataset * list Node).

(** [self.submit(generate_inputs(structure, calculator_settings,
    calc_type))], finished. *)
Variable submit_calculation : datanode → Node → string → process.

Variable get_nac_from_data : datanode → datanode → datanode → Node.

(** [get_path_using_seekpath(structure, band_resolution)] *)
Variable get_path_using_seekpath : datanode → nat → Node.

(** [Code.get_from_string(code_string).get_builder()]: the code the builder
    is bound to, or the error of the lookup. *)
Variable Code_get_from_string : string → result Node.

(** [self.submit(builder)], finished. *)
Variable submit_builder : builder → process.

(** The phonopy calculation of [run_phonopy_in_workchain] (lines 322-384):
    from the structure, the settings, the force constants or else the force
    sets, the NAC data if any and the band paths, the force constants,
    thermal properties, DOS and band structure. *)
Variable phonopy_properties :
  datanode → gmap string pyval → datanode + datanode → option datanode →
  datanode → result (datanode * datanode * datanode * datanode).

(** *** The steps *)

(** [for x in l: ...] with a body that may raise. *)
Fixpoint for_each {A S} (body : A → S → result S) (l : list A) (s : S)
    : result S :=
  match l with
  | [] => Ok s
  | x :: l => s' ← body x s; for_each body l s'
  end.

(** Lines 135-139: the supercell matrix from the array given. *)
Definition supercell_matrix_of (dim : ndarray) : result ndarray :=
  if decide (size dim = 3) then np_diag dim else Ok (np_array dim).

(** Lines 143-154: the dictionary that ends up in the context, from the
    one given and the supercell matrix. *)
Definition phonon_settings_of (i : Inputs) (smat : ndarray)
    : gmap string pyval :=
  let phonon_settings_dict := default ∅ (in_phonon_settings i) in
  let cell_keys := in_cell_matrices i in
  let d := <["supercell_matrix" := tolist smat]> phonon_settings_dict in
  let pmat := default np_eye3 (cell_keys !! "primitive_matrix") in
  let d := <["primitive_matrix" := tolist (astype_float pmat)]> d in
  let d := match d !! "mesh" with
           | None => <["mesh" := PList [PInt 20; PInt 20; PInt 20]]> d
           | Some _ => d
           end in
  let d := <["distance" := PFloat (in_distance i)]> d in
  let tolerance := in_symmetry_tolerance i in
  <["symmetry_tolerance" := PFloat tolerance]> d.

(** The test of lines 156-158. *)
Definition remote_without_code (i : Inputs) : bool :=
  in_run_phonopy i && in_remote_phonopy i
  && (bool_decide (in_code_string i = None)
      || bool_decide (in_options i = None)).

Definition check_settings (i : Inputs) (w : State) : result State :=
  let cell_keys := in_cell_matrices i in
  match cell_keys !! "supercell_matrix" with
  | None => Raise (RuntimeError "supercell_matrix is not found in cell_matrices.")
  | Some dim =>
      smat ← supercell_matrix_of dim;
      if negb (is_integer smat)
      then Raise (TypeError "supercell_matrix is not integer matrix.")
      else
        let phonon_settings_dict := phonon_settings_of i smat in
        if remote_without_code i
        then Raise (RuntimeError "code_string and options have to be specified.")
        else Ok (set_ctx "phonon_settings"
                   (VData (DParams phonon_settings_dict)) w)
  end.

Definition optimize (i : Inputs) (w : State) : result State :=
  let future :=
    submit_OptimizeStructure (in_structure i) (in_calculator_settings i)
      (in_pressure i) in
  Ok (set_ctx "optimized" (VProcess future) w).

Definition set_unitcell (i : Inputs) (w : State) : result State :=
  match ctx w !! "optimized" with
  | Some _ =>
      optimized ← ctx_process w "optimized";
      s ← node_out optimized "optimized_structure";
      let w := set_ctx "final_structure" (VData s) w in
      d ← node_out optimized "optimized_structure_data";
      Ok (out "optimized_data" d w)
  | None =>
      Ok (set_ctx "final_structure" (VData (DNode (in_structure i))) w)
  end.

Definition create_displacements (i : Inputs) (w : State) : result State :=
  settings ← ctx_data w "phonon_settings";
  phonon_settings_dict ← get_dict settings;
  final_structure ← ctx_data w "final_structure";
  smat ← getitem phonon_settings_dict "supercell_matrix";
  pmat ← getitem phonon_settings_dict "primitive_matrix";
  symprec ← getitem phonon_settings_dict "symmetry_tolerance";
  distance ← getitem phonon_settings_dict "distance";
  '(primitive, dataset, cells_with_disp) ←
    phonopy_displacements final_structure smat pmat symprec distance;
  let w := set_ctx "primitive_structure" (VData (DNode primitive)) w in
  let disp :=
    {| data_sets := dataset;
       number_of_displacements := length cells_with_disp;
       structures :=
         list_to_map (imap (λ i c, (structure_label i, c)) cells_with_disp) |} in
  Ok (set_ctx "disp_dataset" (VDisp disp) w).

Definition run_force_and_nac_calculations (i : Inputs) (w : State)
    : result State :=
  disp ← ctx_disp w "disp_dataset";
  w' ← for_each
         (λ k w',
            let label := structure_label k in
            supercell ← getitem (structures disp) label;
            let future :=
              submit_calculation (DNode supercell) (in_calculator_settings i)
                "forces" in
            Ok (set_ctx label (VProcess future) w'))
         (seq 0 (number_of_displacements disp)) w;
  if in_is_nac i then
    primitive ← ctx_data w "primitive_structure";
    let future :=
      submit_calculation primitive (in_calculator_settings i) "nac" in
    Ok (set_ctx "born_and_epsilon" (VProcess future) w')
  else Ok w'.

(** Lines 253-257: one turn of the loop that gathers the forces. *)
Definition gather_forces (w : State) (k : nat) (forces : list ndarray)
    : result (list ndarray) :=
  calc ← ctx_process w (structure_label k);
  let out_dict := proc_outputs calc in
  match out_dict !! "output_forces" with
  | Some (DArrays arrays) =>
      match arrays !! "final" with
      | Some final => Ok (forces ++ [final])
      | None => Ok forces
      end
  | Some _ => Raise (AttributeError "get_arraynames")
  | None => Ok forces
  end.

Definition create_force_sets (i : Inputs) (w : State) : result State :=
  disp ← ctx_disp w "disp_dataset";
  forces ← for_each (gather_forces w) (seq 0 (number_of_displacements disp)) [];
  if decide (length forces ≠ number_of_displacements disp)
  then Raise (RuntimeError "Forces could not be retrieved.")
  else
    let force_sets :=
      {| fs_data_sets := data_sets disp; fs_forces := forces |} in
    Ok (set_ctx "force_sets" (VData (DForceSets force_sets)) w).

Definition create_nac_params (i : Inputs) (w : State) : result State :=
  born_and_epsilon ← ctx_process w "born_and_epsilon";
  born_charges ← node_out born_and_epsilon "output_born_charges";
  epsilon ← node_out born_and_epsilon "output_dielectrics";
  structure ← node_inp born_and_epsilon "structure";
  Ok (set_ctx "nac_data"
        (VData (DNode (get_nac_from_data born_charges epsilon structure))) w).

Definition set_default_outputs (i : Inputs) (w : State) : result State :=
  final_structure ← ctx_data w "final_structure";
  let w := out "final_structure" final_structure w in
  force_sets ← ctx_data w "force_sets";
  let w := out "force_sets" force_sets w in
  match ctx w !! "nac_data" with
  | Some _ => nac_data ← ctx_data w "nac_data"; Ok (out "nac_data" nac_data w)
  | None => Ok w
  end.

Definition prepare_phonopy_inputs (i : Inputs) (w : State) : result State :=
  primitive ← ctx_data w "primitive_structure";
  Ok (set_ctx "band_paths"
        (VData (DNode (get_path_using_seekpath primitive 30))) w).

(** [self.ctx.<name>] when [name in self.ctx], for an attribute of the
    builder that is set only then. *)
Definition ctx_data_if_present (w : State) (name : string)
    : result (option datanode) :=
  match ctx w !! name with
  | Some _ => d ← ctx_data w name; Ok (Some d)
  | None => Ok None
  end.

Definition create_phonopy_builder (i : Inputs) (w : State) : result State :=
  code_string ← getattr (in_code_string i) "code_string";
  code ← Code_get_from_string code_string;
  structure ← ctx_data w "final_structure";
  parameters ← ctx_data w "phonon_settings";
  options ← getattr (in_options i) "options";
  force_constants ← ctx_data_if_present w "force_constants";
  force_sets ←
    match force_constants with
    | Some _ => Ok None
    | None => ctx_data_if_present w "force_sets"
    end;
  nac_data ← ctx_data_if_present w "nac_data";
  bands ← ctx_data_if_present w "band_paths";
  let b :=
    {| b_code := code; b_structure := structure; b_parameters := parameters;
       b_options := options; b_force_constants := force_constants;
       b_force_sets := force_sets; b_nac_data := nac_data; b_bands := bands |} in
  if bool_decide (ctx w !! "force_sets" = None)
     && bool_decide (ctx w !! "force_constants" = None)
  then Raise (RuntimeError "Force sets and force constants were not found.")
  else Ok (set_ctx "phonopy_builder" (VBuilder b) w).

Definition run_phonopy_remote (i : Inputs) (w : State) : result State :=
  b ← ctx_builder w "phonopy_builder";
  Ok (set_ctx "phonon_properties" (VProcess (submit_builder b)) w).

Definition run_phonopy_in_workchain (i : Inputs) (w : State) : result State :=
  settings ← ctx_data w "phonon_settings";
  phonon_settings_dict ← get_dict settings;
  final_structure ← ctx_data w "final_structure";
  _ ← getitem phonon_settings_dict "supercell_matrix";
  _ ← getitem phonon_settings_dict "primitive_matrix";
  _ ← getitem phonon_settings_dict "symmetry_tolerance";
  source ←
    match ctx w !! "force_constants" with
    | Some _ => fc ← ctx_data w "force_constants"; Ok (inl fc)
    | None => fs ← ctx_data w "force_sets"; Ok (inr fs)
    end;
  nac_data ← ctx_data_if_present w "nac_data";
  _ ← getitem phonon_settings_dict "mesh";
  bands ← ctx_data w "band_paths";
  '(force_constants, thermal_properties, dos, band_structure) ←
    phonopy_properties final_structure phonon_settings_dict source nac_data
      bands;
  Ok (out "band_structure" band_structure
        (out "dos" dos
           (out "thermal_properties" thermal_properties
              (out "force_constants" force_constants w)))).

Definition collect_data (i : Inputs) (w : State) : result State :=
  phonon_properties ← ctx_process w "phonon_properties";
  force_constants ← node_out phonon_properties "force_constants";
  let w := out "force_constants" force_constants w in
  thermal_properties ← node_out phonon_properties "thermal_properties";
  let w := out "thermal_properties" thermal_properties w in
  dos ← node_out phonon_properties "dos";
  let w := out "dos" dos w in
  band_structure ← node_out phonon_properties "band_structure";
  Ok (out "band_structure" band_structure w).

(** The predicates of the outline: each returns one input. *)
Definition use_optimize (i : Inputs) : bool := in_optimize i.
Definition remote_phonopy (i : Inputs) : bool := in_remote_phonopy i.
Definition run_phonopy (i : Inputs) : bool := in_run_phonopy i.
Definition is_nac (i : Inputs) : bool := in_is_nac i.

(** *** The outline and the engine that follows it *)

(** [spec.outline(...)]: a step is a method, called by the engine and
    logged here under its name; [if_(p)(body).else_(orelse)] tests a
    predicate when it is reached. *)
Inductive instr :=
| Call (name : string) (step : Inputs → State → result State)
| If_ (p : Inputs → bool) (body orelse : list instr).

(** The engine: the steps run one after the other on the state the step
    before left; a step that raises ends the run.  The first component is
    the list of the steps started, in the order they were started. *)
Fixpoint run_instr (i : Inputs) (o : instr) (acc : list string * result State)
    {struct o} : list string * result State :=
  match acc.2 with
  | Raise _ => acc
  | Ok w =>
      match o with
      | Call name step => (acc.1 ++ [name], step i w)
      | If_ p body orelse =>
          foldl (λ acc o', run_instr i o' acc) acc
                (if p i then body else orelse)
      end
  end.

Definition run (i : Inputs) (outline : list instr) (w : State)
    : list string * result State :=
  foldl (λ acc o, run_instr i o acc) ([], Ok w) outline.

(** Lines 92-108. *)
Definition PhononPhonopy_outline : list instr :=
  [ Call "check_settings" check_settings;
    If_ use_optimize [Call "optimize" optimize] [];
    Call "set_unitcell" set_unitcell;
    Call "create_displacements" create_displacements;
    Call "run_force_and_nac_calculations" run_force_and_nac_calculations;
    Call "create_force_sets" create_force_sets;
    If_ is_nac [Call "create_nac_params" create_nac_params] [];
    Call "set_default_outputs" set_default_outputs;
    Call "prepare_phonopy_inputs" prepare_phonopy_inputs;
    If_ run_phonopy
      [ If_ remote_phonopy
          [ Call "create_phonopy_builder" create_phonopy_builder;
            Call "run_phonopy_remote" run_phonopy_remote;
            Call "collect_data" collect_data ]
          [ Call "run_phonopy_in_workchain" run_phonopy_in_workchain ] ]
      [] ].

(** The steps that the predicates select, in the order of the outline. *)
Fixpoint schedule_instr (i : Inputs) (o : instr)
    : list (string * (Inputs → State → result State)) :=
  match o with
  | Call name step => [(name, step)]
  | If_ p body orelse =>
      concat (map (schedule_instr i) (if p i then body else orelse))
  end.

Definition schedule (i : Inputs) (outline : list instr)
    : list (string * (Inputs → State → result State)) :=
  concat (map (schedule_instr i) outline).

(** The engine on a list of steps. *)
Definition run_step (i : Inputs) (acc : list string * result State)
    (s : string * (Inputs → State → result State))
    : list string * result State :=
  match acc.2 with
  | Raise _ => acc
  | Ok w => (acc.1 ++ [s.1], s.2 i w)
  end.

(** The four steps inside [if_(cls.run_phonopy)]. *)
Definition phonopy_steps : list string :=
  ["create_phonopy_builder"; "run_phonopy_remote"; "collect_data";
   "run_phonopy_in_workchain"].

(** The stages of the workflow, and the steps that make them up.  The steps
    that only move data between stages ([set_unitcell], [create_nac_params],
    [set_default_outputs], [prepare_phonopy_inputs]) belong to none. *)
Inductive stage :=
| SettingsCheck
| StructureOptimization
| DisplacementGeneration
| ForceCalculations
| ForceSetAssembly
| PhononProperties.

Definition stage_of (name : string) : option stage :=
  if decide (name = "check_settings") then Some SettingsCheck
  else if decide (name = "optimize") then Some StructureOptimization
  else if decide (name = "create_displacements") then Some DisplacementGeneration
  else if decide (name = "run_force_and_nac_calculations") then Some ForceCalculations
  else if decide (name = "create_force_sets") then Some ForceSetAssembly
  else if decide (name ∈ phonopy_steps) then Some PhononProperties
  else None.

Definition stage_rank (s : stage) : nat :=
  match s with
  | SettingsCheck => 0
  | StructureOptimization => 1
  | DisplacementGeneration => 2
  | ForceCalculations => 3
  | ForceSetAssembly => 4
  | PhononProperties => 5
  end.

(** No stage is followed by an earlier one, and only the steps of the last
    stage follow one another. *)
Fixpoint in_order (l : list stage) : bool :=
  match l with
  | [] => true
  | s :: l =>
      forallb (λ s', Nat.ltb (stage_rank s) (stage_rank s')
                     || (Nat.eqb (stage_rank s) 5 && Nat.eqb (stage_rank s') 5)) l
      && in_order l
  end.

(** *** The engine follows the schedule *)

Lemma instr_ind' (P : instr → Prop) :
  (∀ name step, P (Call name step)) →
  (∀ p body orelse, Forall P body → Forall P orelse → P (If_ p body orelse)) →
  ∀ o, P o.
Proof.
  intros HCall HIf. fix IH 1. intros [name step|p body orelse].
  - apply HCall.
  - apply HIf.
    + induction body as [|o body IHb]; constructor; [apply IH|exact IHb].
    + induction orelse as [|o orelse IHe]; constructor; [apply IH|exact IHe].
Qed.

Lemma foldl_run_step_raise i tr e sch :
  foldl (run_step i) (tr, Raise e) sch = (tr, Raise e).
Proof. induction sch as [|s sch IH]; simpl; [done|]. exact IH. Qed.

Lemma foldl_run_instr_raise i tr e l :
  foldl (λ acc o, run_instr i o acc) (tr, Raise e) l = (tr, Raise e).
Proof.
  induction l as [|o l IH]; simpl; [done|].
  destruct o; simpl; exact IH.
Qed.

Lemma run_instr_schedule i o :
  ∀ acc, run_instr i o acc = foldl (run_step i) acc (schedule_instr i o).
Proof.
  induction o as [name step|p body orelse IHb IHe] using instr_ind';
    intros [tr [w|e]]; simpl; try done.
  - assert (Hl : ∀ l, Forall (λ o, ∀ acc, run_instr i o acc
                         = foldl (run_step i) acc (schedule_instr i o)) l →
              ∀ acc, foldl (λ acc o', run_instr i o' acc) acc l
                     = foldl (run_step i) acc (concat (map (schedule_instr i) l))).
    { induction 1 as [|o l Ho _ IH]; intros acc; simpl; [done|].
      by rewrite foldl_app, <- Ho, IH. }
    destruct (p i); by apply Hl.
  - by rewrite foldl_run_step_raise.
Qed.

Lemma run_schedule i outline w :
  run i outline w = foldl (run_step i) ([], Ok w) (schedule i outline).
Proof.
  unfold run, schedule. generalize ([] : list string, Ok w).
  induction outline as [|o outline IH]; intros acc; simpl; [done|].
  by rewrite foldl_app, <- run_instr_schedule, IH.
Qed.

(** The steps started are a prefix of the schedule: all of it when the
    run ends without an exception. *)
Lemma run_steps_trace i sch :
  ∀ tr w,
    (foldl (run_step i) (tr, Ok w) sch).1 `prefix_of` tr ++ sch.*1
    ∧ (is_Ok (foldl (run_step i) (tr, Ok w) sch).2 →
       (foldl (run_step i) (tr, Ok w) sch).1 = tr ++ sch.*1).
Proof.
  induction sch as [|[name step] sch IH]; intros tr w; simpl.
  - rewrite app_nil_r. done.
  - unfold run_step at 2 4 6. simpl.
    destruct (step i w) as [w'|e].
    + specialize (IH (tr ++ [name]) w'). by rewrite <- app_assoc in IH.
    + rewrite foldl_run_step_raise. simpl. split.
      * exists (sch.*1). by rewrite <- app_assoc.
      * intros [? [=]].
Qed.

Lemma run_trace i outline w :
  (run i outline w).1 `prefix_of` (schedule i outline).*1
  ∧ (is_Ok (run i outline w).2 →
     (run i outline w).1 = (schedule i outline).*1).
Proof. rewrite run_schedule. apply (run_steps_trace i _ [] w). Qed.


Lemma prefix_omap {A B} (f : A → option B) (l1 l2 : list A) :
  l1 `prefix_of` l2 → omap f l1 `prefix_of` omap f l2.
Proof. intros [k ->]. rewrite omap_app. by eexists. Qed.

Lemma in_order_lookup l :
  in_order l = true →
  ∀ a b sa sb, a < b → l !! a = Some sa → l !! b = Some sb →
    stage_rank sa < stage_rank sb
    ∨ (sa = PhononProperties ∧ sb = PhononProperties).
Proof.
  induction l as [|s l IH]; intros Hl a b sa sb Hab Ha Hb; [done|].
  simpl in Hl. apply andb_true_iff in Hl as [Hs Hl].
  destruct b as [|b]; [lia|]. simpl in Hb.
  destruct a as [|a]; simpl in Ha.
  - injection Ha as ->. rewrite forallb_forall in Hs.
    specialize (Hs sb). rewrite <- list_elem_of_In in Hs.
    assert (sb ∈ l) as Hin by (apply list_elem_of_lookup; eauto).
    apply Hs in Hin. apply orb_true_iff in Hin as [H|H].
    + left. by apply Nat.ltb_lt.
    + right. apply andb_true_iff in H as [H1 H2].
      apply Nat.eqb_eq in H1, H2. by destruct sa, sb.
  - apply (IH Hl a b); [lia|done|done].
Qed.

Lemma in_order_prefix l1 l2 :
  l1 `prefix_of` l2 → in_order l2 = true → in_order l1 = true.
Proof.
  intros [k ->]. induction l1 as [|s l1 IH]; simpl; [done|].
  rewrite !andb_true_iff, forallb_app, andb_true_iff.
  intros [[Hs _] Hl]. split; [exact Hs|exact (IH Hl)].
Qed.

(** *** The outline of [PhononPhonopy] *)

(** The steps of a run that no exception ends, read off lines 92-108. *)
Definition planned_steps (i : Inputs) : list string :=
  ["check_settings"]
  ++ (if in_optimize i then ["optimize"] else [])
  ++ ["set_unitcell"; "create_displacements";
      "run_force_and_nac_calculations"; "create_force_sets"]
  ++ (if in_is_nac i then ["create_nac_params"] else [])
  ++ ["set_default_outputs"; "prepare_phonopy_inputs"]
  ++ (if in_run_phonopy i then
        if in_remote_phonopy i
        then ["create_phonopy_builder"; "run_phonopy_remote"; "collect_data"]
        else ["run_phonopy_in_workchain"]
      else []).

(** Their stages. *)
Definition planned_stages (i : Inputs) : list stage :=
  [SettingsCheck]
  ++ (if in_optimize i then [StructureOptimization] else [])
  ++ [DisplacementGeneration; ForceCalculations; ForceSetAssembly]
  ++ (if in_run_phonopy i then
        if in_remote_phonopy i
        then [PhononProperties; PhononProperties; PhononProperties]
        else [PhononProperties]
      else []).

Lemma schedule_PhononPhonopy i :
  (schedule i PhononPhonopy_outline).*1 = planned_steps i.
Proof.
  unfold planned_steps.
  cbv [schedule schedule_instr PhononPhonopy_outline concat map app
       use_optimize is_nac run_phonopy remote_phonopy].
  destruct (in_optimize i), (in_is_nac i), (in_run_phonopy i),
    (in_remote_phonopy i); reflexivity.
Qed.

Lemma planned_steps_stages i :
  omap stage_of (planned_steps i) = planned_stages i.
Proof.
  unfold planned_steps, planned_stages.
  destruct (in_optimize i), (in_is_nac i), (in_run_phonopy i),
    (in_remote_phonopy i); vm_compute; reflexivity.
Qed.

Lemma planned_stages_in_order i : in_order (planned_stages i) = true.
Proof.
  unfold planned_stages.
  by destruct (in_optimize i), (in_run_phonopy i), (in_remote_phonopy i).
Qed.



(** *** [check_settings] *)

(** [run_phonopy] and [remote_phonopy] are true while [code_string] or
    [options] is not among the inputs. *)
Definition missing_remote_inputs (i : Inputs) : Prop :=
  in_run_phonopy i = true ∧ in_remote_phonopy i = true
  ∧ (in_code_string i = None ∨ in_options i = None).

Lemma remote_without_code_spec i :
  remote_without_code i = true ↔ missing_remote_inputs i.
Proof.
  unfold remote_without_code, missing_remote_inputs.
  rewrite !andb_true_iff, orb_true_iff, !bool_decide_eq_true. tauto.
Qed.

Lemma remote_without_code_false i :
  remote_without_code i = false ↔ ¬ missing_remote_inputs i.
Proof.
  rewrite <- remote_without_code_spec. by destruct (remote_without_code i).
Qed.

Lemma np_diag_integer a b : np_diag a = Ok b → is_integer b = is_integer a.
Proof.
  unfold np_diag, is_integer.
  destruct (shape a) as [|n [|m [|k sh]]]; intros [= <-]; simpl;
    by destruct (data a).
Qed.

Lemma supercell_matrix_of_integer dim smat :
  supercell_matrix_of dim = Ok smat → is_integer smat = is_integer dim.
Proof.
  unfold supercell_matrix_of. destruct (decide _).
  - apply np_diag_integer.
  - by intros [= <-].
Qed.

(** The array given is turned into a supercell matrix unless it has three
    elements in no or more than two dimensions, for which [np.diag] raises
    [ValueError]. *)
Lemma supercell_matrix_of_Ok dim :
  is_Ok (supercell_matrix_of dim)
  ↔ (size dim = 3 → length (shape dim) = 1 ∨ length (shape dim) = 2).
Proof.
  unfold supercell_matrix_of, np_diag, is_Ok. destruct (decide _) as [H3|H3].
  - destruct (shape dim) as [|n [|m [|k sh]]]; simpl; split;
      try (intros [? [=]]; fail); try (intros H; destruct (H H3); lia);
      eauto.
  - split; [done|]. eauto.
Qed.

(** The arrays that [np.diag] is called on (line 136) and rejects: three
    elements in neither one nor two dimensions. *)
Definition diag_rejects (dim : ndarray) : Prop :=
  size dim = 3 ∧ length (shape dim) ≠ 1 ∧ length (shape dim) ≠ 2.

Lemma supercell_matrix_of_rejects dim :
  diag_rejects dim →
  supercell_matrix_of dim = Raise (ValueError "Input must be 1- or 2-d.").
Proof.
  intros (H3 & H1 & H2). unfold supercell_matrix_of, np_diag.
  destruct (decide _); [|done].
  by destruct (shape dim) as [|n [|m [|k sh]]].
Qed.

Lemma supercell_matrix_of_accepts dim :
  ¬ diag_rejects dim → ∃ smat, supercell_matrix_of dim = Ok smat.
Proof.
  intros H. apply supercell_matrix_of_Ok. intros H3.
  destruct (decide (length (shape dim) = 1)) as [|H1]; [by left|].
  destruct (decide (length (shape dim) = 2)) as [|H2]; [by right|].
  by destruct H.
Qed.

Lemma diag_rejects_dec dim : diag_rejects dim ∨ ¬ diag_rejects dim.
Proof.
  unfold diag_rejects.
  destruct (decide (size dim = 3)); [|tauto].
  destruct (decide (length (shape dim) = 1)); [tauto|].
  destruct (decide (length (shape dim) = 2)); tauto.
Qed.

(** What [check_settings] does, by the state of the supercell matrix. *)
Lemma check_settings_no_supercell i w :
  in_cell_matrices i !! "supercell_matrix" = None →
  check_settings i w
  = Raise (RuntimeError "supercell_matrix is not found in cell_matrices.").
Proof. intros H. unfold check_settings. by rewrite H. Qed.

Lemma check_settings_not_integer i w dim smat :
  in_cell_matrices i !! "supercell_matrix" = Some dim →
  supercell_matrix_of dim = Ok smat →
  is_integer dim = false →
  check_settings i w = Raise (TypeError "supercell_matrix is not integer matrix.").
Proof.
  intros H Hs Hi. unfold check_settings. rewrite H, Hs. simpl.
  by rewrite (supercell_matrix_of_integer _ _ Hs), Hi.
Qed.

Lemma check_settings_integer i w dim smat :
  in_cell_matrices i !! "supercell_matrix" = Some dim →
  supercell_matrix_of dim = Ok smat →
  is_integer dim = true →
  check_settings i w
  = if remote_without_code i
    then Raise (RuntimeError "code_string and options have to be specified.")
    else Ok (set_ctx "phonon_settings"
               (VData (DParams (phonon_settings_of i smat))) w).
Proof.
  intros H Hs Hi. unfold check_settings. rewrite H, Hs. simpl.
  by rewrite (supercell_matrix_of_integer _ _ Hs), Hi.
Qed.

Lemma check_settings_diag_error i w dim e :
  in_cell_matrices i !! "supercell_matrix" = Some dim →
  supercell_matrix_of dim = Raise e →
  check_settings i w = Raise e ∧ ∃ msg, e = ValueError msg.
Proof.
  intros H Hs. unfold check_settings. rewrite H, Hs. split; [done|].
  unfold supercell_matrix_of, np_diag in Hs. destruct (decide _); [|done].
  destruct (shape dim) as [|n [|m [|k sh]]]; simplify_eq; eauto.
Qed.

Lemma check_settings_Ok_inv i w w' :
  check_settings i w = Ok w' →
  ∃ dim smat,
    in_cell_matrices i !! "supercell_matrix" = Some dim
    ∧ supercell_matrix_of dim = Ok smat
    ∧ is_integer dim = true
    ∧ ¬ missing_remote_inputs i
    ∧ w' = set_ctx "phonon_settings"
             (VData (DParams (phonon_settings_of i smat))) w.
Proof.
  intros Hok.
  destruct (in_cell_matrices i !! "supercell_matrix") as [dim|] eqn:H.
  2:{ by rewrite check_settings_no_supercell in Hok. }
  destruct (supercell_matrix_of dim) as [smat|e] eqn:Hs.
  2:{ destruct (check_settings_diag_error i w dim e H Hs) as [He _].
      congruence. }
  destruct (is_integer dim) eqn:Hi.
  2:{ rewrite (check_settings_not_integer i w dim smat) in Hok; done. }
  rewrite (check_settings_integer i w dim smat) in Hok by done.
  destruct (remote_without_code i) eqn:Hr; [done|].
  injection Hok as <-. exists dim, smat.
  by rewrite <- remote_without_code_false.
Qed.

Lemma check_settings_rejected i w dim :
  in_cell_matrices i !! "supercell_matrix" = Some dim →
  diag_rejects dim →
  check_settings i w = Raise (ValueError "Input must be 1- or 2-d.").
Proof.
  intros H Hr. unfold check_settings.
  by rewrite H, (supercell_matrix_of_rejects dim Hr).
Qed.


(** C5, amended: when the ['supercell_matrix'] array is there and is not of
    an integer dtype, [check_settings] raises no [RuntimeError]: it raises
    [TypeError] (with the message "supercell_matrix is not integer matrix."),
    unless the array has three elements in neither one nor two dimensions,
    for which [np.diag] raises [ValueError] before the dtype is tested. *)
Theorem check_settings_type_error (i : Inputs) (w : State) dim :
  in_cell_matrices i !! "supercell_matrix" = Some dim →
  is_integer dim = false →
  (¬ diag_rejects dim →
   check_settings i w
   = Raise (TypeError "supercell_matrix is not integer matrix."))
  ∧ (diag_rejects dim →
     check_settings i w = Raise (ValueError "Input must be 1- or 2-d."))
  ∧ ¬ ∃ msg, check_settings i w = Raise (RuntimeError msg).
Proof.
  intros H Hi.
  assert (Ht : ¬ diag_rejects dim →
               check_settings i w
               = Raise (TypeError "supercell_matrix is not integer matrix.")).
  { intros Hd. destruct (supercell_matrix_of_accepts dim Hd) as [smat Hs].
    by apply (check_settings_not_integer i w dim smat). }
  pose proof (check_settings_rejected i w dim H) as Hv.
  split; [done|]. split; [done|]. intros [msg Hr].
  destruct (diag_rejects_dec dim) as [Hd|Hd].
  - rewrite (Hv Hd) in Hr. done.
  - rewrite (Ht Hd) in Hr. done.
Qed.

(** The entries of the dictionary that [check_settings] stores. *)
Lemma phonon_settings_of_supercell i smat :
  phonon_settings_of i smat !! "supercell_matrix" = Some (tolist smat).
Proof.
  unfold phonon_settings_of. cbv zeta.
  rewrite !lookup_insert_ne by done.
  destruct (_ !! "mesh");
    rewrite ?lookup_insert_ne by done; apply lookup_insert_eq.
Qed.

Lemma phonon_settings_of_primitive i smat :
  phonon_settings_of i smat !! "primitive_matrix"
  = Some (tolist (astype_float
                    (default np_eye3 (in_cell_matrices i !! "primitive_matrix")))).
Proof.
  unfold phonon_settings_of. cbv zeta.
  rewrite !lookup_insert_ne by done.
  destruct (_ !! "mesh");
    rewrite ?lookup_insert_ne by done; apply lookup_insert_eq.
Qed.





(** *** What the steps leave alone *)

Lemma for_each_invariant {A S} (P : S → Prop) (body : A → S → result S) l :
  (∀ x s s', body x s = Ok s' → P s → P s') →
  ∀ s s', for_each body l s = Ok s' → P s → P s'.
Proof.
  intros Hbody. induction l as [|x l IH]; intros s s' H Hs; simpl in H.
  - by injection H as <-.
  - apply bind_Ok in H as (s1 & H1 & H). eauto.
Qed.

(** Only [set_unitcell] attaches the output ['optimized_data']. *)
Definition keeps_optimized_data (step : Inputs → State → result State) : Prop :=
  ∀ i w w', step i w = Ok w' →
    outputs w' !! "optimized_data" = outputs w !! "optimized_data".

Lemma check_settings_keeps : keeps_optimized_data check_settings.
Proof.
  intros i w w' H. by apply check_settings_Ok_inv in H as (? & ? & _ & _ & _ & _ & ->).
Qed.

Lemma optimize_keeps : keeps_optimized_data optimize.
Proof. intros i w w' H. unfold optimize in H. by inv_result. Qed.

Lemma create_displacements_keeps : keeps_optimized_data create_displacements.
Proof. intros i w w' H. unfold create_displacements in H. by inv_result. Qed.

Lemma run_force_and_nac_calculations_keeps :
  keeps_optimized_data run_force_and_nac_calculations.
Proof.
  intros i w w' H. unfold run_force_and_nac_calculations in H.
  apply bind_Ok in H as (disp & _ & H). apply bind_Ok in H as (w1 & Hloop & H).
  assert (outputs w1 = outputs w) as Hw1.
  { apply (for_each_invariant (λ s, outputs s = outputs w) _ _) in Hloop;
      [done| |done].
    intros k s s' Hs <-. by inv_result. }
  rewrite <- Hw1. destruct (in_is_nac i); by inv_result.
Qed.

Lemma create_force_sets_keeps : keeps_optimized_data create_force_sets.
Proof. intros i w w' H. unfold create_force_sets in H. by inv_result. Qed.

Lemma create_nac_params_keeps : keeps_optimized_data create_nac_params.
Proof. intros i w w' H. unfold create_nac_params in H. by inv_result. Qed.

Lemma set_default_outputs_keeps : keeps_optimized_data set_default_outputs.
Proof.
  intros i w w' H. unfold set_default_outputs in H.
  inv_result; simpl; by rewrite ?lookup_insert_ne.
Qed.

Lemma prepare_phonopy_inputs_keeps : keeps_optimized_data prepare_phonopy_inputs.
Proof. intros i w w' H. unfold prepare_phonopy_inputs in H. by inv_result. Qed.

Lemma create_phonopy_builder_keeps : keeps_optimized_data create_phonopy_builder.
Proof. intros i w w' H. unfold create_phonopy_builder in H. by inv_result. Qed.

Lemma run_phonopy_remote_keeps : keeps_optimized_data run_phonopy_remote.
Proof. intros i w w' H. unfold run_phonopy_remote in H. by inv_result. Qed.

Lemma run_phonopy_in_workchain_keeps :
  keeps_optimized_data run_phonopy_in_workchain.
Proof.
  intros i w w' H. unfold run_phonopy_in_workchain in H.
  inv_result; simpl; by rewrite ?lookup_insert_ne.
Qed.

Lemma collect_data_keeps : keeps_optimized_data collect_data.
Proof.
  intros i w w' H. unfold collect_data in H.
  inv_result; simpl; by rewrite ?lookup_insert_ne.
Qed.

Lemma run_steps_preserve i (P : State → Prop) sch :
  Forall (λ s, ∀ w w', s.2 i w = Ok w' → P w → P w') sch →
  ∀ tr w w', (foldl (run_step i) (tr, Ok w) sch).2 = Ok w' → P w → P w'.
Proof.
  induction 1 as [|[name step] sch Hs _ IH]; intros tr w w' H Hw; simpl in H.
  - by injection H as <-.
  - unfold run_step at 2 in H. simpl in H, Hs.
    destruct (step i w) as [w1|e] eqn:E.
    + eauto.
    + by rewrite foldl_run_step_raise in H.
Qed.

(** *** [set_unitcell] *)

Lemma set_unitcell_not_optimized i w :
  ctx w !! "optimized" = None →
  set_unitcell i w
  = Ok (set_ctx "final_structure" (VData (DNode (in_structure i))) w).
Proof. intros H. unfold set_unitcell. by rewrite H. Qed.

Lemma set_unitcell_optimized i w w' :
  is_Some (ctx w !! "optimized") →
  set_unitcell i w = Ok w' →
  ∃ p s d,
    ctx w !! "optimized" = Some (VProcess p)
    ∧ proc_outputs p !! "optimized_structure" = Some s
    ∧ proc_outputs p !! "optimized_structure_data" = Some d
    ∧ w' = out "optimized_data" d (set_ctx "final_structure" (VData s) w).
Proof.
  intros [v Hv] H. unfold set_unitcell in H. rewrite Hv in H.
  unfold ctx_process, ctx_get, node_out, getattr in H. rewrite Hv in H.
  simpl in H. destruct v as [| p | |]; try done. simpl in H.
  destruct (proc_outputs p !! "optimized_structure") as [s|] eqn:Es; [|done].
  simpl in H.
  destruct (proc_outputs p !! "optimized_structure_data") as [d|] eqn:Ed;
    [|done].
  injection H as <-. by exists p, s, d.
Qed.

Lemma schedule_PhononPhonopy_steps i :
  schedule i PhononPhonopy_outline
  = [("check_settings", check_settings)]
    ++ (if in_optimize i then [("optimize", optimize)] else [])
    ++ [("set_unitcell", set_unitcell);
        ("create_displacements", create_displacements);
        ("run_force_and_nac_calculations", run_force_and_nac_calculations);
        ("create_force_sets", create_force_sets)]
    ++ (if in_is_nac i then [("create_nac_params", create_nac_params)] else [])
    ++ [("set_default_outputs", set_default_outputs);
        ("prepare_phonopy_inputs", prepare_phonopy_inputs)]
    ++ (if in_run_phonopy i then
          if in_remote_phonopy i
          then [("create_phonopy_builder", create_phonopy_builder);
                ("run_phonopy_remote", run_phonopy_remote);
                ("collect_data", collect_data)]
          else [("run_phonopy_in_workchain", run_phonopy_in_workchain)]
        else []).
Proof.
  unfold schedule, PhononPhonopy_outline. simpl.
  unfold use_optimize, is_nac, run_phonopy.
  destruct (in_optimize i), (in_is_nac i), (in_run_phonopy i); simpl;
    unfold remote_phonopy; destruct (in_remote_phonopy i); reflexivity.
Qed.

(** A run with [optimize] false attaches no ['optimized_data']. *)
Lemma run_not_optimized i w' :
  in_optimize i = false →
  (run i PhononPhonopy_outline initial).2 = Ok w' →
  outputs w' !! "optimized_data" = None.
Proof.
  intros Hopt. rewrite run_schedule, schedule_PhononPhonopy_steps, Hopt.
  change ([("check_settings", check_settings)] ++ [] ++ ?l)
    with (("check_settings", check_settings) :: l).
  change ([("set_unitcell", set_unitcell);
           ("create_displacements", create_displacements);
           ("run_force_and_nac_calculations", run_force_and_nac_calculations);
           ("create_force_sets", create_force_sets)] ++ ?l)
    with (("set_unitcell", set_unitcell)
          :: [("create_displacements", create_displacements);
           ("run_force_and_nac_calculations", run_force_and_nac_calculations);
           ("create_force_sets", create_force_sets)] ++ l).
  cbn [foldl]. unfold run_step at 3. cbn [fst snd].
  destruct (check_settings i initial) as [w1|e] eqn:E1.
  2:{ unfold run_step at 2. cbn [snd]. by rewrite foldl_run_step_raise. }
  apply check_settings_Ok_inv in E1 as (? & ? & _ & _ & _ & _ & ->).
  unfold run_step at 2. cbn [fst snd app].
  rewrite set_unitcell_not_optimized by done.
  intros Hrun.
  refine (run_steps_preserve i (λ w, outputs w !! "optimized_data" = None)
            _ _ _ _ _ Hrun _); [|done].
  clear Hrun.
  assert (Hkeep : ∀ step, keeps_optimized_data step →
            ∀ w w' : State, step i w = Ok w' →
              outputs w !! "optimized_data" = None →
              outputs w' !! "optimized_data" = None).
  { intros step Hstep w1 w2 H Hw. by rewrite (Hstep i w1 w2 H). }
  destruct (in_is_nac i), (in_run_phonopy i), (in_remote_phonopy i);
    cbn [app]; repeat (apply Forall_cons_2; [apply Hkeep|]);
    try apply Forall_nil_2;
    first [ apply create_displacements_keeps
          | apply run_force_and_nac_calculations_keeps
          | apply create_force_sets_keeps | apply create_nac_params_keeps
          | apply set_default_outputs_keeps | apply prepare_phonopy_inputs_keeps
          | apply create_phonopy_builder_keeps | apply run_phonopy_remote_keeps
          | apply run_phonopy_in_workchain_keeps | apply collect_data_keeps ].
Qed.

(** C9: when ['optimized'] is not in the context, [set_unitcell] returns,
    sets the context's [final_structure] to the input structure, changes
    nothing else in the context and leaves the outputs as they are; when it
    is, ['optimized_data'] is the one output attached, with the structure
    data of the optimization.  In a run of the workchain from its start, an
    ['optimized_data'] output is there at the end only if the [optimize] step
    was run. *)
Theorem set_unitcell_frame (i : Inputs) :
  (∀ w, ctx w !! "optimized" = None →
     ∃ w', set_unitcell i w = Ok w'
       ∧ ctx w' = <["final_structure" := VData (DNode (in_structure i))]> (ctx w)
       ∧ ctx w' !! "final_structure" = Some (VData (DNode (in_structure i)))
       ∧ outputs w' = outputs w)
  ∧ (∀ w w', is_Some (ctx w !! "optimized") → set_unitcell i w = Ok w' →
       ∃ p s d,
         ctx w !! "optimized" = Some (VProcess p)
         ∧ proc_outputs p !! "optimized_structure" = Some s
         ∧ proc_outputs p !! "optimized_structure_data" = Some d
         ∧ ctx w' = <["final_structure" := VData s]> (ctx w)
         ∧ outputs w' = <["optimized_data" := d]> (outputs w))
  ∧ (∀ w', (run i PhononPhonopy_outline initial).2 = Ok w' →
       is_Some (outputs w' !! "optimized_data") →
       in_optimize i = true
       ∧ "optimize" ∈ (run i PhononPhonopy_outline initial).1).
Proof.
  split; [|split].
  - intros w H. eexists. split; [by apply set_unitcell_not_optimized|].
    simpl. by rewrite lookup_insert_eq.
  - intros w w' Hin H.
    destruct (set_unitcell_optimized i w w' Hin H)
      as (p & s & d & Hp & Hs & Hd & ->).
    by exists p, s, d.
  - intros w' Hrun Hout.
    destruct (in_optimize i) eqn:Hopt.
    2:{ rewrite (run_not_optimized i w' Hopt Hrun) in Hout.
        by destruct Hout. }
    split; [done|].
    destruct (run_trace i PhononPhonopy_outline initial) as [_ Hall].
    rewrite Hall by (rewrite Hrun; by eexists).
    rewrite schedule_PhononPhonopy. unfold planned_steps. rewrite Hopt.
    set_solver.
Qed.

(** *** The order of the stages *)

(** The four outputs of the phonon property derivation. *)
Definition phonon_outputs : list string :=
  ["force_constants"; "thermal_properties"; "dos"; "band_structure"].

Lemma collect_data_outputs i w w' :
  collect_data i w = Ok w' →
  ∀ label, label ∈ phonon_outputs → is_Some (outputs w' !! label).
Proof.
  intros H label Hl. unfold collect_data in H. inv_result. simpl.
  unfold phonon_outputs in Hl.
  repeat (apply elem_of_cons in Hl as [->|Hl];
          [rewrite ?lookup_insert_ne by done; rewrite lookup_insert_eq; eauto|]).
  by apply not_elem_of_nil in Hl.
Qed.

Lemma run_phonopy_in_workchain_outputs i w w' :
  run_phonopy_in_workchain i w = Ok w' →
  ∀ label, label ∈ phonon_outputs → is_Some (outputs w' !! label).
Proof.
  intros H label Hl. unfold run_phonopy_in_workchain in H.
  unfold phonon_outputs in Hl.
  inv_result; simpl;
    repeat (apply elem_of_cons in Hl as [->|Hl];
            [rewrite ?lookup_insert_ne by done; rewrite lookup_insert_eq; eauto|]);
    by apply not_elem_of_nil in Hl.
Qed.

(** A run that returns has returned from its last step. *)
Lemma run_steps_last i sch s tr w w' :
  (foldl (run_step i) (tr, Ok w) (sch ++ [s])).2 = Ok w' →
  ∃ w1, s.2 i w1 = Ok w'.
Proof.
  rewrite foldl_app. simpl. unfold run_step at 1.
  destruct (foldl (run_step i) (tr, Ok w) sch) as [tr1 [w1|e]]; simpl;
    [eauto|done].
Qed.

Lemma run_phonon_outputs i w w' :
  (run i PhononPhonopy_outline w).2 = Ok w' →
  in_run_phonopy i = true →
  ∀ label, label ∈ phonon_outputs → is_Some (outputs w' !! label).
Proof.
  rewrite run_schedule, schedule_PhononPhonopy_steps. intros Hrun Hp.
  rewrite Hp in Hrun. rewrite !app_assoc in Hrun.
  destruct (in_remote_phonopy i).
  - change [("create_phonopy_builder", create_phonopy_builder);
            ("run_phonopy_remote", run_phonopy_remote);
            ("collect_data", collect_data)]
      with ([("create_phonopy_builder", create_phonopy_builder);
             ("run_phonopy_remote", run_phonopy_remote)]
            ++ [("collect_data", collect_data)]) in Hrun.
    rewrite app_assoc in Hrun. apply run_steps_last in Hrun as [w1 Hlast].
    by apply (collect_data_outputs i w1).
  - apply run_steps_last in Hrun as [w1 Hlast].
    by apply (run_phonopy_in_workchain_outputs i w1).
Qed.

(** C3, amended: in every run of the workchain the steps started are the
    first steps of [planned_steps], in that order, and all of them when no
    exception ends the run.  So the stages come in the fixed order: the
    settings check, the structure optimization (only if the [optimize] input
    is true), the displacement generation, the force calculations, the
    force-set assembly, and (only if the [run_phonopy] input is true) the
    derivation of the phonon properties, which attaches force constants,
    thermal properties, DOS and band structure as outputs; of two steps
    started one after the other, the later one never belongs to an earlier
    stage. *)
Theorem outline_stage_order (i : Inputs) (w : State) :
  (run i PhononPhonopy_outline w).1 `prefix_of` planned_steps i
  ∧ (is_Ok (run i PhononPhonopy_outline w).2 →
     (run i PhononPhonopy_outline w).1 = planned_steps i)
  ∧ omap stage_of (planned_steps i)
    = [SettingsCheck]
      ++ (if in_optimize i then [StructureOptimization] else [])
      ++ [DisplacementGeneration; ForceCalculations; ForceSetAssembly]
      ++ (if in_run_phonopy i then
            if in_remote_phonopy i
            then [PhononProperties; PhononProperties; PhononProperties]
            else [PhononProperties]
          else [])
  ∧ (∀ a b sa sb,
       a < b →
       omap stage_of (run i PhononPhonopy_outline w).1 !! a = Some sa →
       omap stage_of (run i PhononPhonopy_outline w).1 !! b = Some sb →
       stage_rank sa < stage_rank sb
       ∨ (sa = PhononProperties ∧ sb = PhononProperties))
  ∧ (∀ w', (run i PhononPhonopy_outline w).2 = Ok w' →
       in_run_phonopy i = true →
       ∀ label, label ∈ phonon_outputs → is_Some (outputs w' !! label)).
Proof.
  destruct (run_trace i PhononPhonopy_outline w) as [Hpre Hall].
  rewrite schedule_PhononPhonopy in *.
  split; [done|]. split; [done|]. split; [apply planned_steps_stages|].
  split; [|apply run_phonon_outputs].
  apply in_order_lookup.
  apply (in_order_prefix _ (planned_stages i)); [|apply planned_stages_in_order].
  rewrite <- planned_steps_stages. by apply prefix_omap.
Qed.

(** *** [create_force_sets] *)

(** The forces of the calculation of displacement [k], when it has an
    ['output_forces'] output that contains a ['final'] array. *)
Definition forces_of (w : State) (k : nat) : option ndarray :=
  match ctx w !! structure_label k with
  | Some (VProcess calc) =>
      match proc_outputs calc !! "output_forces" with
      | Some (DArrays arrays) => arrays !! "final"
      | _ => None
      end
  | _ => None
  end.

(** The forces that can be retrieved for the displacements [0 .. n-1], in
    the order of the displacements. *)
Definition retrievable_forces (w : State) (n : nat) : list ndarray :=
  omap (forces_of w) (seq 0 n).

(** The calculation of displacement [k] is in the context, and its
    ['output_forces'] output, if it has one, is an [ArrayData]. *)
Definition calculation_done (w : State) (k : nat) : Prop :=
  ∃ calc,
    ctx w !! structure_label k = Some (VProcess calc)
    ∧ ∀ d, proc_outputs calc !! "output_forces" = Some d → ∃ arrays, d = DArrays arrays.

Lemma gather_forces_done w k forces :
  calculation_done w k →
  gather_forces w k forces = Ok (forces ++ option_list (forces_of w k)).
Proof.
  intros (calc & Hc & Harr). unfold gather_forces, forces_of, ctx_process,
    ctx_get. rewrite Hc. simpl.
  destruct (proc_outputs calc !! "output_forces") as [d|] eqn:Ed.
  - destruct (Harr d eq_refl) as [arrays ->].
    destruct (arrays !! "final"); simpl; by rewrite ?app_nil_r.
  - simpl. by rewrite app_nil_r.
Qed.

Lemma for_each_gather_forces w l :
  (∀ k, k ∈ l → calculation_done w k) →
  ∀ forces,
    for_each (gather_forces w) l forces = Ok (forces ++ omap (forces_of w) l).
Proof.
  induction l as [|k l IH]; intros Hl forces; simpl.
  - by rewrite app_nil_r.
  - rewrite gather_forces_done by (apply Hl; left). simpl.
    rewrite IH by (intros; apply Hl; by right).
    rewrite <- app_assoc. by destruct (forces_of w k).
Qed.

(** C6: when the displacement dataset and the calculations of its
    displacements are in the context, [create_force_sets] raises
    [RuntimeError] if and only if the number of forces that can be retrieved
    differs from ['number_of_displacements']; otherwise it returns and has
    stored in the context the force sets made of the dataset and of exactly
    those forces, in the order of the displacements. *)
Theorem create_force_sets_spec (i : Inputs) (w : State) (disp : disp_dataset) :
  ctx w !! "disp_dataset" = Some (VDisp disp) →
  (∀ k, k < number_of_displacements disp → calculation_done w k) →
  ((∃ msg, create_force_sets i w = Raise (RuntimeError msg))
   ↔ length (retrievable_forces w (number_of_displacements disp))
     ≠ number_of_displacements disp)
  ∧ (length (retrievable_forces w (number_of_displacements disp))
     = number_of_displacements disp →
     create_force_sets i w
     = Ok (set_ctx "force_sets"
             (VData (DForceSets
                {| fs_data_sets := data_sets disp;
                   fs_forces :=
                     retrievable_forces w (number_of_displacements disp) |}))
             w)).
Proof.
  intros Hdisp Hcalcs.
  assert (Hrun : create_force_sets i w
    = if decide (length (retrievable_forces w (number_of_displacements disp))
                 ≠ number_of_displacements disp)
      then Raise (RuntimeError "Forces could not be retrieved.")
      else Ok (set_ctx "force_sets"
             (VData (DForceSets
                {| fs_data_sets := data_sets disp;
                   fs_forces :=
                     retrievable_forces w (number_of_displacements disp) |}))
             w)).
  { unfold create_force_sets, ctx_disp, ctx_get. rewrite Hdisp. simpl.
    rewrite for_each_gather_forces.
    - done.
    - intros k Hk. apply Hcalcs. apply elem_of_seq in Hk. lia. }
  rewrite Hrun. split.
  - destruct (decide _) as [Hne|Heq]; split; try done; eauto.
    by intros [msg [=]].
  - intros Heq. by destruct (decide _).
Qed.

(** *** [create_phonopy_builder] *)

(** The entry [name] of the context as a data node, if there is one. *)
Definition ctx_data_opt (w : State) (name : string) : option datanode :=
  match ctx w !! name with
  | Some (VData d) => Some d
  | _ => None
  end.

(** The entry [name], when it is there, is a data node. *)
Definition data_if_present (w : State) (name : string) : Prop :=
  ∀ v, ctx w !! name = Some v → ∃ d, v = VData d.

Lemma ctx_data_if_present_Ok w name :
  data_if_present w name →
  ctx_data_if_present w name = Ok (ctx_data_opt w name).
Proof.
  intros H. unfold ctx_data_if_present, ctx_data_opt, ctx_data, ctx_get.
  destruct (ctx w !! name) as [v|] eqn:E; [|done].
  destruct (H v E) as [d ->]. done.
Qed.

(** C7, amended: when the code that [code_string] names is not found,
    [create_phonopy_builder] raises the exception of the lookup, whatever
    the context holds.  When the inputs [code_string] and [options] are
    given, the code is found, the context holds the final structure and the
    phonon settings, and its entries for force constants, force sets, NAC
    data and band paths are data nodes where they are there, then
    [create_phonopy_builder] raises [RuntimeError] when neither
    ['force_sets'] nor ['force_constants'] is in the context; when one of
    them is, it returns and has stored under ['phonopy_builder'] a builder
    with the code, the final structure, the phonon settings, the options,
    the force constants if they are there and else the force sets, and the
    NAC data and band paths that are there. *)
Theorem create_phonopy_builder_spec (i : Inputs) (w : State) :
  (∀ code_string e,
     in_code_string i = Some code_string →
     Code_get_from_string code_string = Raise e →
     create_phonopy_builder i w = Raise e)
  ∧ ∀ code_string code structure parameters options,
      in_code_string i = Some code_string →
      Code_get_from_string code_string = Ok code →
      ctx w !! "final_structure" = Some (VData structure) →
      ctx w !! "phonon_settings" = Some (VData parameters) →
      in_options i = Some options →
      data_if_present w "force_constants" →
      data_if_present w "force_sets" →
      data_if_present w "nac_data" →
      data_if_present w "band_paths" →
      (ctx w !! "force_sets" = None ∧ ctx w !! "force_constants" = None →
       create_phonopy_builder i w
       = Raise (RuntimeError "Force sets and force constants were not found."))
      ∧ (is_Some (ctx w !! "force_sets")
         ∨ is_Some (ctx w !! "force_constants") →
         create_phonopy_builder i w
         = Ok (set_ctx "phonopy_builder"
                 (VBuilder
                    {| b_code := code;
                       b_structure := structure;
                       b_parameters := parameters;
                       b_options := options;
                       b_force_constants := ctx_data_opt w "force_constants";
                       b_force_sets :=
                         match ctx_data_opt w "force_constants" with
                         | Some _ => None
                         | None => ctx_data_opt w "force_sets"
                         end;
                       b_nac_data := ctx_data_opt w "nac_data";
                       b_bands := ctx_data_opt w "band_paths" |}) w)).
Proof.
  split.
  { intros code_string e Hcs Hcode. unfold create_phonopy_builder.
    rewrite Hcs. simpl. by rewrite Hcode. }
  intros code_string code structure parameters options
    Hcs Hcode Hfs Hps Hopt Hfc Hsets Hnac Hbands.
  assert (Hrun : create_phonopy_builder i w
    = if bool_decide (ctx w !! "force_sets" = None)
         && bool_decide (ctx w !! "force_constants" = None)
      then Raise (RuntimeError "Force sets and force constants were not found.")
      else Ok (set_ctx "phonopy_builder"
             (VBuilder
                {| b_code := code;
                   b_structure := structure;
                   b_parameters := parameters;
                   b_options := options;
                   b_force_constants := ctx_data_opt w "force_constants";
                   b_force_sets :=
                     match ctx_data_opt w "force_constants" with
                     | Some _ => None
                     | None => ctx_data_opt w "force_sets"
                     end;
                   b_nac_data := ctx_data_opt w "nac_data";
                   b_bands := ctx_data_opt w "band_paths" |}) w)).
  { unfold create_phonopy_builder. rewrite Hcs, Hopt. simpl. rewrite Hcode.
    simpl. unfold ctx_data at 1 2, ctx_get. rewrite Hfs, Hps. simpl.
    rewrite !ctx_data_if_present_Ok by done. simpl.
    by destruct (ctx_data_opt w "force_constants"). }
  rewrite Hrun. split.
  - intros [-> ->]. done.
  - intros [[v Hv]|[v Hv]]; rewrite Hv.
    + done.
    + by rewrite andb_false_r.
Qed.

(** *** More about [check_settings] *)


(** X7: [check_settings] writes one entry of the context, ['phonon_settings'],
    and nothing else: the other entries and the outputs are as before.  In
    the dictionary stored, every key of the [phonon_settings] input other
    than the five that the method sets has the value given. *)
Theorem check_settings_frame (i : Inputs) (w w' : State) :
  check_settings i w = Ok w' →
  outputs w' = outputs w
  ∧ (∀ name, name ≠ "phonon_settings" → ctx w' !! name = ctx w !! name)
  ∧ ∃ d,
      ctx w' !! "phonon_settings" = Some (VData (DParams d))
      ∧ ∀ key,
          key ∉ ["supercell_matrix"; "primitive_matrix"; "mesh"; "distance";
                 "symmetry_tolerance"] →
          d !! key = default ∅ (in_phonon_settings i) !! key.
Proof.
  intros H.
  apply check_settings_Ok_inv in H as (dim & smat & _ & _ & _ & _ & ->).
  split; [done|]. split.
  - intros name Hname. simpl. by rewrite lookup_insert_ne.
  - eexists. split; [simpl; apply lookup_insert_eq|].
    intros key Hkey. unfold phonon_settings_of. cbv zeta.
    assert (key ≠ "supercell_matrix" ∧ key ≠ "primitive_matrix"
            ∧ key ≠ "mesh" ∧ key ≠ "distance" ∧ key ≠ "symmetry_tolerance")
      as (H1 & H2 & H3 & H4 & H5).
    { repeat split; intros ->; apply Hkey; set_solver. }
    rewrite !lookup_insert_ne by done.
    destruct (_ !! "mesh"); by rewrite ?lookup_insert_ne by done.
Qed.

(** Whether a Python value holds an integer, or a float, somewhere. *)
Fixpoint has_int (v : pyval) : bool :=
  match v with
  | PInt _ => true
  | PList l => existsb has_int l
  | _ => false
  end.

Fixpoint has_float (v : pyval) : bool :=
  match v with
  | PFloat _ => true
  | PList l => existsb has_float l
  | _ => false
  end.

Lemma blocks_fmap {A B} (f : A → B) n k (l : list A) :
  blocks n k (f <$> l) = (λ b : list A, f <$> b) <$> blocks n k l.
Proof.
  revert l. induction n as [|n IH]; intros l; simpl; [done|].
  by rewrite <- fmap_take, <- fmap_drop, IH.
Qed.

Lemma nest_floats sh (l : list float) : has_int (nest sh (PFloat <$> l)) = false.
Proof.
  revert l. induction sh as [|n sh IH]; intros l; simpl.
  - by destruct l.
  - rewrite blocks_fmap. generalize (blocks n (foldr Nat.mul 1 sh) l).
    intros bs. induction bs as [|b bs IHbs]; [done|].
    rewrite !fmap_cons. cbn [existsb]. by rewrite IH, IHbs.
Qed.

Lemma nest_ints sh (l : list Z) : has_float (nest sh (PInt <$> l)) = false.
Proof.
  revert l. induction sh as [|n sh IH]; intros l; simpl.
  - by destruct l.
  - rewrite blocks_fmap. generalize (blocks n (foldr Nat.mul 1 sh) l).
    intros bs. induction bs as [|b bs IHbs]; [done|].
    rewrite !fmap_cons. cbn [existsb]. by rewrite IH, IHbs.
Qed.

(** X8: the supercell matrix that [check_settings] stores holds no float, and
    the primitive matrix it stores holds no integer, whatever the dtype of
    the ['primitive_matrix'] array given. *)
Theorem check_settings_dtypes (i : Inputs) (w w' : State) :
  check_settings i w = Ok w' →
  ∃ d smat pmat,
    ctx w' !! "phonon_settings" = Some (VData (DParams d))
    ∧ d !! "supercell_matrix" = Some smat ∧ has_float smat = false
    ∧ d !! "primitive_matrix" = Some pmat ∧ has_int pmat = false.
Proof.
  intros H.
  apply check_settings_Ok_inv in H as (dim & smat & _ & Hs & Hi & _ & ->).
  eexists _, _, _. split; [simpl; apply lookup_insert_eq|].
  rewrite phonon_settings_of_supercell, phonon_settings_of_primitive.
  split; [done|]. split; [|split; [done|]].
  - rewrite <- (supercell_matrix_of_integer _ _ Hs) in Hi.
    unfold tolist, is_integer in *. destruct (data smat); [|done].
    apply nest_ints.
  - unfold tolist, astype_float. simpl.
    destruct (data (default np_eye3 _)); apply nest_floats.
Qed.

(** *** More about [set_unitcell] *)

(** X9: [set_unitcell] returns if and only if there was no optimization, or the
    optimization that is in the context has both an ['optimized_structure']
    and an ['optimized_structure_data'] output; with an optimization that
    lacks one of them it raises [AttributeError] for the first one
    missing. *)
Theorem set_unitcell_returns_iff (i : Inputs) (w : State) :
  (is_Ok (set_unitcell i w)
   ↔ ctx w !! "optimized" = None
     ∨ ∃ p, ctx w !! "optimized" = Some (VProcess p)
            ∧ is_Some (proc_outputs p !! "optimized_structure")
            ∧ is_Some (proc_outputs p !! "optimized_structure_data"))
  ∧ (∀ p, ctx w !! "optimized" = Some (VProcess p) →
       proc_outputs p !! "optimized_structure" = None →
       set_unitcell i w = Raise (AttributeError "optimized_structure"))
  ∧ (∀ p, ctx w !! "optimized" = Some (VProcess p) →
       is_Some (proc_outputs p !! "optimized_structure") →
       proc_outputs p !! "optimized_structure_data" = None →
       set_unitcell i w = Raise (AttributeError "optimized_structure_data")).
Proof.
  split; [|split].
  - split.
    + intros [w' H].
      destruct (ctx w !! "optimized") as [v|] eqn:Hv; [right|by left].
      destruct (set_unitcell_optimized i w w') as (p & s & d & Hp & Hs & Hd & _);
        [by rewrite Hv|done|].
      exists p. rewrite Hs, Hd. rewrite Hv in Hp. eauto.
    + intros [H|(p & Hp & [s Hs] & [d Hd])].
      * rewrite set_unitcell_not_optimized by done. by eexists.
      * unfold set_unitcell, ctx_process, ctx_get, node_out. rewrite Hp. simpl.
        rewrite Hs. simpl. rewrite Hd. simpl. by eexists.
  - intros p Hp Hs.
    unfold set_unitcell, ctx_process, ctx_get, node_out. rewrite Hp. simpl.
    by rewrite Hs.
  - intros p Hp [s Hs] Hd.
    unfold set_unitcell, ctx_process, ctx_get, node_out. rewrite Hp. simpl.
    rewrite Hs. simpl. by rewrite Hd.
Qed.

(** *** The displaced supercells, their calculations and their forces *)

Lemma structure_label_inj k1 k2 :
  structure_label k1 = structure_label k2 → k1 = k2.
Proof.
  unfold structure_label. intros H. apply String.app_inj in H.
  by apply (inj pretty) in H.
Qed.

(** A label starts with an [s]: it is none of the other entries of the
    context. *)
Lemma structure_label_head k :
  ∃ t, structure_label k = "s" +:+ t.
Proof. unfold structure_label. by eexists. Qed.

Lemma structures_lookup (cells : list Node) off k :
  (list_to_map (imap (λ j c, (structure_label (off + j), c)) cells)
     : gmap string Node) !! structure_label (off + k)
  = cells !! k.
Proof.
  revert off k. induction cells as [|c cells IH]; intros off k; [done|].
  rewrite imap_cons. cbn [list_to_map foldr curry uncurry fst snd].
  destruct k as [|k].
  - by rewrite lookup_insert_eq.
  - rewrite lookup_insert_ne
      by (intros H%structure_label_inj; lia).
    change ((c :: cells) !! S k) with (cells !! k).
    rewrite <- (IH (S off) k). replace (off + S k) with (S off + k) by lia.
    f_equal. f_equal. apply imap_ext. intros j x _. simpl.
    by replace (off + S j) with (S (off + j)) by lia.
Qed.

Lemma create_displacements_Ok_inv (i : Inputs) (w w' : State) :
  create_displacements i w = Ok w' →
  ∃ d final_structure smat pmat symprec distance primitive dataset cells,
    ctx w !! "phonon_settings" = Some (VData (DParams d))
    ∧ ctx w !! "final_structure" = Some (VData final_structure)
    ∧ d !! "supercell_matrix" = Some smat
    ∧ d !! "primitive_matrix" = Some pmat
    ∧ d !! "symmetry_tolerance" = Some symprec
    ∧ d !! "distance" = Some distance
    ∧ phonopy_displacements final_structure smat pmat symprec distance
      = Ok (primitive, dataset, cells)
    ∧ w' = set_ctx "disp_dataset"
             (VDisp {| data_sets := dataset;
                       number_of_displacements := length cells;
                       structures :=
                         list_to_map
                           (imap (λ j c, (structure_label j, c)) cells) |})
             (set_ctx "primitive_structure" (VData (DNode primitive)) w).
Proof.
  intros H. unfold create_displacements in H.
  apply bind_Ok in H as (settings & Hsettings & H).
  apply bind_Ok in H as (d & Hd & H).
  apply bind_Ok in H as (fs & Hfs & H).
  apply bind_Ok in H as (smat & Hsmat & H).
  apply bind_Ok in H as (pmat & Hpmat & H).
  apply bind_Ok in H as (symprec & Hsym & H).
  apply bind_Ok in H as (distance & Hdist & H).
  apply bind_Ok in H as ([[primitive dataset] cells] & Hph & H).
  injection H as <-.
  unfold ctx_data, ctx_get, getattr in Hsettings, Hfs.
  destruct (ctx w !! "phonon_settings") as [[settings'| | |]|] eqn:E1;
    simplify_eq/=.
  destruct (ctx w !! "final_structure") as [[fs'| | |]|] eqn:E2; simplify_eq/=.
  destruct settings as [|d'| |]; simplify_eq/=.
  unfold getitem in *.
  destruct (d !! "supercell_matrix") eqn:?; simplify_eq/=.
  destruct (d !! "primitive_matrix") eqn:?; simplify_eq/=.
  destruct (d !! "symmetry_tolerance") eqn:?; simplify_eq/=.
  destruct (d !! "distance") eqn:?; simplify_eq/=.
  by eexists d, fs, smat, pmat, symprec, distance, primitive, dataset, cells.
Qed.

(** X10: what [create_displacements] leaves in the context: the primitive
    cell, and a displacement dictionary whose count is the number of
    supercells that phonopy made and in which the [k]-th supercell, and
    nothing else, is found under ['structure_<k>']; the other entries of the
    context and the outputs are as before. *)
Theorem create_displacements_stores (i : Inputs) (w w' : State) :
  create_displacements i w = Ok w' →
  ∃ d final_structure smat pmat symprec distance primitive dataset cells disp,
    ctx w !! "phonon_settings" = Some (VData (DParams d))
    ∧ ctx w !! "final_structure" = Some (VData final_structure)
    ∧ d !! "supercell_matrix" = Some smat
    ∧ d !! "primitive_matrix" = Some pmat
    ∧ d !! "symmetry_tolerance" = Some symprec
    ∧ d !! "distance" = Some distance
    ∧ phonopy_displacements final_structure smat pmat symprec distance
      = Ok (primitive, dataset, cells)
    ∧ ctx w' !! "primitive_structure" = Some (VData (DNode primitive))
    ∧ ctx w' !! "disp_dataset" = Some (VDisp disp)
    ∧ data_sets disp = dataset
    ∧ number_of_displacements disp = length cells
    ∧ (∀ k, structures disp !! structure_label k = cells !! k)
    ∧ (∀ name, name ≠ "primitive_structure" → name ≠ "disp_dataset" →
         ctx w' !! name = ctx w !! name)
    ∧ outputs w' = outputs w.
Proof.
  intros H. apply create_displacements_Ok_inv in H
    as (d & fs & smat & pmat & symprec & distance & primitive & dataset
        & cells & H1 & H2 & H3 & H4 & H5 & H6 & H7 & ->).
  eexists d, fs, smat, pmat, symprec, distance, primitive, dataset, cells, _.
  do 7 (split; [eassumption|]). simpl.
  split; [by rewrite lookup_insert_ne, lookup_insert_eq|].
  split; [by rewrite lookup_insert_eq|].
  split; [done|]. split; [done|].
  split; [intros k; apply (structures_lookup cells 0 k)|].
  split; [|done]. intros name Hn1 Hn2. by rewrite !lookup_insert_ne.
Qed.

(** One turn of the loop of [run_force_and_nac_calculations]. *)
Definition submit_forces (i : Inputs) (disp : disp_dataset) (k : nat)
    (w : State) : result State :=
  let label := structure_label k in
  supercell ← getitem (structures disp) label;
  let future :=
    submit_calculation (DNode supercell) (in_calculator_settings i) "forces" in
  Ok (set_ctx label (VProcess future) w).

Lemma for_each_submit_forces i disp l :
  (∀ k, k ∈ l → is_Some (structures disp !! structure_label k)) →
  ∀ w, ∃ w',
    for_each (submit_forces i disp) l w = Ok w'
    ∧ outputs w' = outputs w
    ∧ (∀ k c, k ∈ l → structures disp !! structure_label k = Some c →
         ctx w' !! structure_label k
         = Some (VProcess (submit_calculation (DNode c)
                             (in_calculator_settings i) "forces")))
    ∧ (∀ name, (∀ k, k ∈ l → name ≠ structure_label k) →
         ctx w' !! name = ctx w !! name).
Proof.
  induction l as [|k l IH]; intros Hl w.
  - exists w. split; [done|]. split; [done|]. split; [|done].
    intros k c Hk. by apply not_elem_of_nil in Hk.
  - destruct (Hl k) as [c Hc]; [left|].
    destruct (IH (λ k' Hk', Hl k' (list_elem_of_further _ _ _ Hk'))
                (set_ctx (structure_label k)
                   (VProcess (submit_calculation (DNode c)
                                (in_calculator_settings i) "forces")) w))
      as (w' & Hrun & Hout & Hin & Hframe).
    exists w'. split; [|split; [done|split]].
    + cbn [for_each]. unfold submit_forces, getitem. rewrite Hc.
      exact Hrun.
    + intros k' c' Hk' Hc'.
      destruct (decide (k' ∈ l)) as [Hl'|Hl']; [by apply Hin|].
      apply elem_of_cons in Hk' as [->|?]; [|done].
      rewrite Hframe.
      * simpl. rewrite lookup_insert_eq. congruence.
      * intros k'' Hk'' Heq%structure_label_inj. congruence.
    + intros name Hname. rewrite Hframe.
      * simpl. rewrite lookup_insert_ne; [done|].
        intros Heq. apply (Hname k); [left|done].
      * intros k' Hk'. apply Hname. by right.
Qed.

Lemma born_and_epsilon_no_label k : "born_and_epsilon" ≠ structure_label k.
Proof. by destruct (structure_label_head k) as [t ->]. Qed.

(** [run_force_and_nac_calculations] after its loop. *)
Lemma run_force_and_nac_calculations_unfold (i : Inputs) (w w1 : State) disp :
  ctx w !! "disp_dataset" = Some (VDisp disp) →
  for_each (submit_forces i disp) (seq 0 (number_of_displacements disp)) w
  = Ok w1 →
  run_force_and_nac_calculations i w
  = if in_is_nac i then
      primitive ← ctx_data w "primitive_structure";
      Ok (set_ctx "born_and_epsilon"
            (VProcess (submit_calculation primitive
                         (in_calculator_settings i) "nac")) w1)
    else Ok w1.
Proof.
  intros Hdisp Hloop.
  unfold run_force_and_nac_calculations, ctx_disp, ctx_get. rewrite Hdisp.
  simpl. fold (submit_forces i disp). by rewrite Hloop.
Qed.

(** X11: when the displacement dictionary has a supercell for each of its
    displacements (and, with NAC, the context has the primitive cell),
    [run_force_and_nac_calculations] returns, and afterwards the context
    holds under ['structure_<k>'] the force calculation of the [k]-th
    supercell and, exactly when [is_nac] is true, under ['born_and_epsilon']
    the NAC calculation of the primitive cell; no other entry and no output
    changes. *)
Theorem run_force_and_nac_calculations_submits (i : Inputs) (w : State) disp :
  ctx w !! "disp_dataset" = Some (VDisp disp) →
  (∀ k, k < number_of_displacements disp →
        is_Some (structures disp !! structure_label k)) →
  (in_is_nac i = true → ∃ p, ctx w !! "primitive_structure" = Some (VData p)) →
  ∃ w',
    run_force_and_nac_calculations i w = Ok w'
    ∧ outputs w' = outputs w
    ∧ (∀ k c, k < number_of_displacements disp →
         structures disp !! structure_label k = Some c →
         ctx w' !! structure_label k
         = Some (VProcess (submit_calculation (DNode c)
                             (in_calculator_settings i) "forces")))
    ∧ (in_is_nac i = true →
         ∃ p, ctx w !! "primitive_structure" = Some (VData p)
              ∧ ctx w' !! "born_and_epsilon"
                = Some (VProcess (submit_calculation p
                                    (in_calculator_settings i) "nac")))
    ∧ (in_is_nac i = false →
         ctx w' !! "born_and_epsilon" = ctx w !! "born_and_epsilon")
    ∧ (∀ name, (∀ k, name ≠ structure_label k) → name ≠ "born_and_epsilon" →
         ctx w' !! name = ctx w !! name).
Proof.
  intros Hdisp Hcells Hprim.
  destruct (for_each_submit_forces i disp (seq 0 (number_of_displacements disp))
              (λ k Hk, Hcells k (proj2 (proj1 (elem_of_seq _ _ _) Hk))) w)
    as (w1 & Hloop & Hout & Hin & Hframe).
  rewrite (run_force_and_nac_calculations_unfold i w w1 disp Hdisp Hloop).
  destruct (in_is_nac i) eqn:Hnac.
  - destruct (Hprim eq_refl) as [p Hp]. unfold ctx_data, ctx_get.
    rewrite Hp. simpl. eexists. split; [done|]. simpl.
    split; [done|]. split; [|split; [|split; [done|]]].
    + intros k c Hk Hc.
      rewrite lookup_insert_ne by apply born_and_epsilon_no_label.
      apply Hin; [|done]. apply elem_of_seq. lia.
    + intros _. exists p. split; [done|]. by rewrite lookup_insert_eq.
    + intros name Hname Hne. rewrite lookup_insert_ne by done.
      apply Hframe. intros k _. apply Hname.
  - exists w1. split; [done|]. split; [done|].
    split; [|split; [done|split]].
    + intros k c Hk Hc. apply Hin; [|done]. apply elem_of_seq. lia.
    + intros _. apply Hframe. intros k _. apply born_and_epsilon_no_label.
    + intros name Hname Hne. apply Hframe. intros k _. apply Hname.
Qed.

(** What [create_displacements] leaves is what
    [run_force_and_nac_calculations] needs. *)
Lemma create_displacements_cells (i : Inputs) (w w1 : State) :
  create_displacements i w = Ok w1 →
  ∃ primitive disp,
    ctx w1 !! "primitive_structure" = Some (VData (DNode primitive))
    ∧ ctx w1 !! "disp_dataset" = Some (VDisp disp)
    ∧ ∀ k, k < number_of_displacements disp →
           is_Some (structures disp !! structure_label k).
Proof.
  intros H. apply create_displacements_Ok_inv in H
    as (d & fs & smat & pmat & symprec & distance & primitive & dataset
        & cells & _ & _ & _ & _ & _ & _ & _ & ->).
  eexists primitive, _. simpl.
  split; [by rewrite lookup_insert_ne, lookup_insert_eq|].
  split; [by rewrite lookup_insert_eq|].
  intros k Hk. simpl in Hk.
  change (is_Some ((list_to_map
                      (imap (λ j c, (structure_label (0 + j), c)) cells)
                    : gmap string Node) !! structure_label (0 + k))).
  rewrite (structures_lookup cells 0 k). by apply lookup_lt_is_Some.
Qed.

Lemma create_displacements_then_run (i : Inputs) (w w1 : State) :
  create_displacements i w = Ok w1 →
  ∃ w2 disp,
    run_force_and_nac_calculations i w1 = Ok w2
    ∧ ctx w2 !! "disp_dataset" = Some (VDisp disp)
    ∧ ∀ k, k < number_of_displacements disp →
        ∃ c, ctx w2 !! structure_label k
             = Some (VProcess (submit_calculation (DNode c)
                                 (in_calculator_settings i) "forces")).
Proof.
  intros (primitive & disp & Hprim & Hdisp & Hall)%create_displacements_cells.
  destruct (for_each_submit_forces i disp (seq 0 (number_of_displacements disp))
              (λ k Hk, Hall k (proj2 (proj1 (elem_of_seq _ _ _) Hk))) w1)
    as (w2 & Hloop & _ & Hin & Hframe).
  assert (Hd : ∀ k, "disp_dataset" ≠ structure_label k).
  { intros k. by destruct (structure_label_head k) as [t ->]. }
  assert (Hcalc : ∀ k, k < number_of_displacements disp →
            ∃ c, ctx w2 !! structure_label k
                 = Some (VProcess (submit_calculation (DNode c)
                                     (in_calculator_settings i) "forces"))).
  { intros k Hk. destruct (Hall k Hk) as [c Hc]. exists c.
    apply Hin; [|done]. apply elem_of_seq. lia. }
  rewrite (run_force_and_nac_calculations_unfold i w1 w2 disp Hdisp Hloop).
  unfold ctx_data, ctx_get. rewrite Hprim. simpl.
  destruct (in_is_nac i); eexists _, disp; (split; [done|]); simpl.
  - rewrite lookup_insert_ne by done. split.
    + rewrite Hframe; [done|]. intros k _. apply Hd.
    + intros k Hk.
      rewrite lookup_insert_ne by apply born_and_epsilon_no_label. by apply Hcalc.
  - split; [|done]. rewrite Hframe; [done|]. intros k _. apply Hd.
Qed.

Lemma forces_pipeline_run (i : Inputs) (w w1 : State) :
  create_displacements i w = Ok w1 →
  is_Ok (run_force_and_nac_calculations i w1).
Proof.
  intros (w2 & disp & Hrun & _)%create_displacements_then_run. by exists w2.
Qed.

(** X12: after [create_displacements], [run_force_and_nac_calculations]
    finds every supercell it looks up and, the submissions returning, cannot
    fail; and after the two, when the ['output_forces'] of the calculations
    are [ArrayData], the calculation of every displacement is in the context
    and [create_force_sets] can fail in one way only, with its
    [RuntimeError]. *)
Theorem forces_pipeline (i : Inputs) (w w1 : State) :
  create_displacements i w = Ok w1 →
  ∃ w2 disp,
    run_force_and_nac_calculations i w1 = Ok w2
    ∧ ctx w2 !! "disp_dataset" = Some (VDisp disp)
    ∧ ((∀ c d,
          proc_outputs (submit_calculation (DNode c)
                          (in_calculator_settings i) "forces")
            !! "output_forces" = Some d →
          ∃ arrays, d = DArrays arrays) →
       (∀ k, k < number_of_displacements disp → calculation_done w2 k)
       ∧ (create_force_sets i w2
          = Raise (RuntimeError "Forces could not be retrieved.")
          ∨ ∃ forces,
              length forces = number_of_displacements disp
              ∧ create_force_sets i w2
                = Ok (set_ctx "force_sets"
                        (VData (DForceSets
                           {| fs_data_sets := data_sets disp;
                              fs_forces := forces |})) w2))).
Proof.
  intros (w2 & disp & Hrun & Hdisp2 & Hcalc)%create_displacements_then_run.
  exists w2, disp. split; [done|]. split; [done|]. intros Htyped.
  assert (Hdone : ∀ k, k < number_of_displacements disp → calculation_done w2 k).
  { intros k Hk. destruct (Hcalc k Hk) as [c Hc].
    eexists. split; [exact Hc|]. apply Htyped. }
  split; [done|].
  unfold create_force_sets, ctx_disp, ctx_get. rewrite Hdisp2. simpl.
  rewrite for_each_gather_forces
    by (intros k Hk; apply Hdone; apply elem_of_seq in Hk; lia).
  simpl. destruct (decide _) as [Hne|Heq]; [by left|right].
  eexists. split; [|done]. by apply dec_stable.
Qed.

(** *** [collect_data] *)

(** X13: with the remote calculation in the context, [collect_data] returns if
    and only if that calculation has the four outputs; it attaches each of
    them under its own label and changes no other output. *)
Theorem collect_data_returns_iff (i : Inputs) (w : State) p :
  ctx w !! "phonon_properties" = Some (VProcess p) →
  (is_Ok (collect_data i w)
   ↔ ∀ label, label ∈ phonon_outputs → is_Some (proc_outputs p !! label))
  ∧ ∀ w', collect_data i w = Ok w' →
      ctx w' = ctx w
      ∧ (∀ label, label ∈ phonon_outputs →
           outputs w' !! label = proc_outputs p !! label)
      ∧ (∀ label, label ∉ phonon_outputs →
           outputs w' !! label = outputs w !! label).
Proof.
  intros Hp.
  assert (Hrun : collect_data i w
    = fc ← node_out p "force_constants";
      tp ← node_out p "thermal_properties";
      dos ← node_out p "dos";
      bs ← node_out p "band_structure";
      Ok (out "band_structure" bs
            (out "dos" dos
               (out "thermal_properties" tp (out "force_constants" fc w))))).
  { unfold collect_data, ctx_process, ctx_get. rewrite Hp. done. }
  rewrite Hrun. unfold node_out, getattr, phonon_outputs. split.
  - split.
    + intros [w' H] label Hl.
      destruct (proc_outputs p !! "force_constants") eqn:E1; [|done].
      destruct (proc_outputs p !! "thermal_properties") eqn:E2; [|done].
      destruct (proc_outputs p !! "dos") eqn:E3; [|done].
      destruct (proc_outputs p !! "band_structure") eqn:E4; [|done].
      repeat (apply elem_of_cons in Hl as [->|Hl]; [by eexists|]).
      by apply not_elem_of_nil in Hl.
    + intros H.
      destruct (H "force_constants") as [? ->]; [elem|].
      destruct (H "thermal_properties") as [? ->]; [elem|].
      destruct (H "dos") as [? ->]; [elem|].
      destruct (H "band_structure") as [? ->]; [elem|].
      by eexists.
  - intros w' H.
    destruct (proc_outputs p !! "force_constants") eqn:E1; [|done].
    destruct (proc_outputs p !! "thermal_properties") eqn:E2; [|done].
    destruct (proc_outputs p !! "dos") eqn:E3; [|done].
    destruct (proc_outputs p !! "band_structure") eqn:E4; [|done].
    injection H as <-. simpl. split; [done|]. split.
    + intros label Hl.
      repeat (apply elem_of_cons in Hl as [->|Hl];
              [by rewrite ?lookup_insert_ne by done; rewrite lookup_insert_eq|]).
      by apply not_elem_of_nil in Hl.
    + intros label Hl. rewrite !lookup_insert_ne; [done|..];
        intros <-; apply Hl; elem.
Qed.

(** *** The context in a run *)

(** The names under which the steps store data nodes, and those under
    which they store the processes they wait for. *)
Definition data_names : list string :=
  ["phonon_settings"; "final_structure"; "primitive_structure"; "force_sets";
   "nac_data"; "band_paths"].

Definition process_names : list string :=
  ["optimized"; "born_and_epsilon"; "phonon_properties"].

(** The kind of value that belongs under a name. *)
Definition entry_kind (name : string) (v : value) : Prop :=
  match v with
  | VData _ => name ∈ data_names
  | VProcess _ => name ∈ process_names ∨ ∃ k, name = structure_label k
  | VDisp _ => name = "disp_dataset"
  | VBuilder _ => name = "phonopy_builder"
  end.

Definition ctx_typed (w : State) : Prop :=
  ∀ name v, ctx w !! name = Some v → entry_kind name v.

(** From [w] to [w'], an entry of the context is either left as it was or
    written with a value of its kind. *)
Definition step_writes (w w' : State) : Prop :=
  ∀ name,
    ctx w' !! name = ctx w !! name
    ∨ ∃ v, ctx w' !! name = Some v ∧ entry_kind name v.

(** The states of a run: the ones that the first [k] steps selected lead
    to, for any [k]. *)
Definition reached (i : Inputs) (w : State) : Prop :=
  ∃ k, (foldl (run_step i) ([], Ok initial)
          (take k (schedule i PhononPhonopy_outline))).2 = Ok w.

Definition has_data (w : State) (name : string) : Prop :=
  ∃ d, ctx w !! name = Some (VData d).

Lemma step_writes_refl w : step_writes w w.
Proof. intros name. by left. Qed.

Lemma step_writes_trans w1 w2 w3 :
  step_writes w1 w2 → step_writes w2 w3 → step_writes w1 w3.
Proof.
  intros H12 H23 name. destruct (H23 name) as [->|?]; [apply H12|by right].
Qed.

Lemma step_writes_set_ctx w w1 name v :
  entry_kind name v → step_writes w w1 → step_writes w (set_ctx name v w1).
Proof.
  intros Hv H name'. simpl. destruct (decide (name' = name)) as [->|Hne].
  - right. exists v. by rewrite lookup_insert_eq.
  - rewrite lookup_insert_ne by done. apply H.
Qed.

Lemma step_writes_out w w1 label d :
  step_writes w w1 → step_writes w (out label d w1).
Proof. intros H name. apply H. Qed.

Lemma step_writes_typed w w' : step_writes w w' → ctx_typed w → ctx_typed w'.
Proof.
  intros H Hw name v Hv. destruct (H name) as [Heq|(v' & Hv' & Hk)].
  - apply Hw. by rewrite <- Heq.
  - congruence.
Qed.

Lemma entry_kind_data name v :
  name ∈ data_names → entry_kind name v → ∃ d, v = VData d.
Proof.
  intros Hname Hv. destruct v as [d| | |]; [by exists d|exfalso..].
  - destruct Hv as [Hv|[k Hk]].
    + unfold data_names in Hname.
      repeat (apply elem_of_cons in Hname as [->|Hname]; [not_elem Hv|]).
      by apply not_elem_of_nil in Hname.
    + destruct (structure_label_head k) as [t Ht]. rewrite Ht in Hk.
      subst name. unfold data_names in Hname.
      repeat (apply elem_of_cons in Hname as [Hname|Hname]; [done|]).
      by apply not_elem_of_nil in Hname.
  - simpl in Hv. subst name. not_elem Hname.
  - simpl in Hv. subst name. not_elem Hname.
Qed.

Lemma step_writes_has_data w w' name :
  name ∈ data_names → step_writes w w' → has_data w name → has_data w' name.
Proof.
  intros Hname H [d Hd]. destruct (H name) as [Heq|(v & Hv & Hk)].
  - exists d. by rewrite Heq.
  - destruct (entry_kind_data name v Hname Hk) as [d' ->]. by exists d'.
Qed.

Lemma ctx_typed_has_data w name :
  name ∈ data_names → ctx_typed w → is_Some (ctx w !! name) → has_data w name.
Proof.
  intros Hname Hw [v Hv].
  destruct (entry_kind_data name v Hname (Hw name v Hv)) as [d ->].
  by exists d.
Qed.

Lemma ctx_typed_force_constants w :
  ctx_typed w → ctx w !! "force_constants" = None.
Proof.
  intros Hw. destruct (ctx w !! "force_constants") as [v|] eqn:E; [|done].
  exfalso. apply Hw in E. destruct v; cbn [entry_kind] in E.
  - not_elem E.
  - destruct E as [E|[k Hk]]; [not_elem E|].
    by destruct (structure_label_head k) as [t Ht]; rewrite Ht in Hk.
  - done.
  - done.
Qed.

Ltac entry_kind :=
  cbn [entry_kind]; first [ done | left; elem | by right; eexists | elem ].

Ltac step_writes :=
  repeat first
    [ apply step_writes_refl
    | apply step_writes_out
    | apply step_writes_set_ctx; [entry_kind|] ].

Lemma check_settings_writes i w w' :
  check_settings i w = Ok w' → step_writes w w'.
Proof.
  intros H. apply check_settings_Ok_inv in H as (? & ? & _ & _ & _ & _ & ->).
  step_writes.
Qed.

Lemma optimize_writes i w w' : optimize i w = Ok w' → step_writes w w'.
Proof. intros H. unfold optimize in H. inv_result. step_writes. Qed.

Lemma set_unitcell_writes i w w' : set_unitcell i w = Ok w' → step_writes w w'.
Proof. intros H. unfold set_unitcell in H. inv_result; step_writes. Qed.

Lemma create_displacements_writes i w w' :
  create_displacements i w = Ok w' → step_writes w w'.
Proof. intros H. unfold create_displacements in H. inv_result; step_writes. Qed.

Lemma run_force_and_nac_calculations_writes i w w' :
  run_force_and_nac_calculations i w = Ok w' → step_writes w w'.
Proof.
  intros H. unfold run_force_and_nac_calculations in H.
  apply bind_Ok in H as (disp & _ & H). apply bind_Ok in H as (w1 & Hloop & H).
  assert (step_writes w w1) as Hw1.
  { apply (for_each_invariant (λ s, step_writes w s) _ _) in Hloop;
      [done| |apply step_writes_refl].
    intros k s s' Hs Hws. apply bind_Ok in Hs as (c & _ & Hs).
    injection Hs as <-. step_writes. done. }
  destruct (in_is_nac i); inv_result; step_writes; done.
Qed.

Lemma create_force_sets_writes i w w' :
  create_force_sets i w = Ok w' → step_writes w w'.
Proof. intros H. unfold create_force_sets in H. inv_result; step_writes. Qed.

Lemma create_nac_params_writes i w w' :
  create_nac_params i w = Ok w' → step_writes w w'.
Proof. intros H. unfold create_nac_params in H. inv_result; step_writes. Qed.

Lemma set_default_outputs_writes i w w' :
  set_default_outputs i w = Ok w' → step_writes w w'.
Proof. intros H. unfold set_default_outputs in H. inv_result; step_writes. Qed.

Lemma prepare_phonopy_inputs_writes i w w' :
  prepare_phonopy_inputs i w = Ok w' → step_writes w w'.
Proof. intros H. unfold prepare_phonopy_inputs in H. inv_result; step_writes. Qed.

Lemma create_phonopy_builder_writes i w w' :
  create_phonopy_builder i w = Ok w' → step_writes w w'.
Proof. intros H. unfold create_phonopy_builder in H. inv_result; step_writes. Qed.

Lemma run_phonopy_remote_writes i w w' :
  run_phonopy_remote i w = Ok w' → step_writes w w'.
Proof. intros H. unfold run_phonopy_remote in H. inv_result; step_writes. Qed.

Lemma run_phonopy_in_workchain_writes i w w' :
  run_phonopy_in_workchain i w = Ok w' → step_writes w w'.
Proof.
  intros H. unfold run_phonopy_in_workchain in H. inv_result; step_writes.
Qed.

Lemma collect_data_writes i w w' : collect_data i w = Ok w' → step_writes w w'.
Proof. intros H. unfold collect_data in H. inv_result; step_writes. Qed.

Lemma schedule_writes i name step :
  (name, step) ∈ schedule i PhononPhonopy_outline →
  ∀ w w', step i w = Ok w' → step_writes w w'.
Proof.
  rewrite schedule_PhononPhonopy_steps. intros Hin w w' H.
  destruct (in_optimize i), (in_is_nac i), (in_run_phonopy i),
    (in_remote_phonopy i); cbn [app] in Hin;
    repeat (apply elem_of_cons in Hin as [[= -> ->]|Hin];
            [eauto using check_settings_writes, optimize_writes,
               set_unitcell_writes, create_displacements_writes,
               run_force_and_nac_calculations_writes, create_force_sets_writes,
               create_nac_params_writes, set_default_outputs_writes,
               prepare_phonopy_inputs_writes, create_phonopy_builder_writes,
               run_phonopy_remote_writes, run_phonopy_in_workchain_writes,
               collect_data_writes|]);
    by apply not_elem_of_nil in Hin.
Qed.

Lemma reached_typed i w : reached i w → ctx_typed w.
Proof.
  intros [k Hk].
  refine (run_steps_preserve i ctx_typed _ _ _ _ _ Hk _); [|done].
  apply Forall_forall. intros [name step] Hin w1 w2 H.
  apply step_writes_typed. apply (schedule_writes i name step); [|done].
  apply elem_of_take in Hin as (j & Hj & _). by eapply list_elem_of_lookup_2.
Qed.

(** X14: the context of a run holds each kind of value under its own names: a
    step of the outline that returns has left each entry of the context as it
    was or has written it with a value of its kind, so that in every state of
    a run an entry that a step reads as a data node, a process, the
    displacement dictionary or the builder is one. *)
Theorem context_kinds (i : Inputs) :
  (∀ name step w w',
     (name, step) ∈ schedule i PhononPhonopy_outline →
     step i w = Ok w' →
     step_writes w w' ∧ (ctx_typed w → ctx_typed w'))
  ∧ ∀ w, reached i w → ctx_typed w.
Proof.
  split.
  - intros name step w w' Hin H.
    pose proof (schedule_writes i name step Hin w w' H) as Hw.
    split; [done|]. by apply step_writes_typed.
  - apply reached_typed.
Qed.

(** X15: no step stores force constants in the context: in a run,
    [create_phonopy_builder] finds none there, and a builder that it makes
    has the force sets of the context and no force constants. *)
Theorem builder_force_sets (i : Inputs) (w w' : State) :
  reached i w →
  create_phonopy_builder i w = Ok w' →
  ctx w !! "force_constants" = None
  ∧ ∃ b fs,
      w' = set_ctx "phonopy_builder" (VBuilder b) w
      ∧ ctx w !! "force_sets" = Some (VData fs)
      ∧ b_force_sets b = Some fs
      ∧ b_force_constants b = None.
Proof.
  intros Hw%reached_typed H.
  pose proof (ctx_typed_force_constants w Hw) as Hfc. split; [done|].
  unfold create_phonopy_builder in H.
  apply bind_Ok in H as (code_string & _ & H).
  apply bind_Ok in H as (code & _ & H).
  apply bind_Ok in H as (structure & _ & H).
  apply bind_Ok in H as (parameters & _ & H).
  apply bind_Ok in H as (options & _ & H).
  apply bind_Ok in H as (fc & Hfc' & H).
  unfold ctx_data_if_present in Hfc'. rewrite Hfc in Hfc'.
  injection Hfc' as <-.
  apply bind_Ok in H as (fs & Hfs & H).
  apply bind_Ok in H as (nac & _ & H).
  apply bind_Ok in H as (bands & _ & H).
  rewrite Hfc in H. unfold ctx_data_if_present in Hfs.
  destruct (ctx w !! "force_sets") as [v|] eqn:E; [|done].
  simpl in H. injection H as <-.
  unfold ctx_data, ctx_get in Hfs. rewrite E in Hfs. simpl in Hfs.
  destruct v as [d| | |]; try done. injection Hfs as <-.
  by eexists _, d.
Qed.

(** *** Which steps can end a run *)

(** The steps that can raise in a run of the workchain from its start. *)
Definition fallible_steps : list string :=
  ["check_settings"; "set_unitcell"; "create_displacements";
   "create_force_sets"; "create_nac_params"; "create_phonopy_builder";
   "collect_data"; "run_phonopy_in_workchain"].

(** From a state with [P], the steps [sch] either all return, and leave a
    state with [Q], or stop with the exception of one of [fallible_steps]. *)
Definition triple (i : Inputs) (P : State → Prop)
    (sch : list (string * (Inputs → State → result State)))
    (Q : State → Prop) : Prop :=
  ∀ tr w, P w →
    match foldl (run_step i) (tr, Ok w) sch with
    | (_, Ok w') => Q w'
    | (tr', Raise _) => ∃ name, last tr' = Some name ∧ name ∈ fallible_steps
    end.

Lemma triple_nil i (P Q : State → Prop) :
  (∀ w, P w → Q w) → triple i P [] Q.
Proof. intros H tr w Hw. simpl. by apply H. Qed.

Lemma triple_step i (P Q : State → Prop) name step :
  (∀ w, P w →
     match step i w with
     | Ok w' => Q w'
     | Raise _ => name ∈ fallible_steps
     end) →
  triple i P [(name, step)] Q.
Proof.
  intros H tr w Hw. specialize (H w Hw). simpl. unfold run_step. simpl.
  destruct (step i w); [done|]. exists name. by rewrite last_snoc.
Qed.

Lemma triple_app i (P Q R : State → Prop) l1 l2 :
  triple i P l1 Q → triple i Q l2 R → triple i P (l1 ++ l2) R.
Proof.
  intros H1 H2 tr w Hw. rewrite foldl_app. specialize (H1 tr w Hw).
  destruct (foldl (run_step i) (tr, Ok w) l1) as [tr1 [w1|e]].
  - by apply H2.
  - by rewrite foldl_run_step_raise.
Qed.

Lemma triple_cons i (P Q R : State → Prop) name step l :
  (∀ w, P w →
     match step i w with
     | Ok w' => Q w'
     | Raise _ => name ∈ fallible_steps
     end) →
  triple i Q l R → triple i P ((name, step) :: l) R.
Proof.
  intros H1 H2. apply (triple_app i P Q R [(name, step)] l); [|done].
  by apply triple_step.
Qed.

Lemma triple_if i (P Q : State → Prop) (b : bool) l :
  triple i P l Q → (∀ w, P w → Q w) → triple i P (if b then l else []) Q.
Proof. intros H1 H2. destruct b; [done|by apply triple_nil]. Qed.

(** What the steps after [set_unitcell], [create_displacements] and
    [create_force_sets] find in the context. *)
Definition has_structure (w : State) : Prop :=
  ctx_typed w ∧ has_data w "final_structure".

Definition has_cells (w : State) : Prop :=
  has_structure w ∧ has_data w "primitive_structure".

Definition has_force_sets (w : State) : Prop :=
  has_cells w ∧ has_data w "force_sets".

Lemma step_writes_has_structure w w' :
  step_writes w w' → has_structure w → has_structure w'.
Proof.
  intros H [Ht Hs]. split; [by eapply step_writes_typed|].
  eapply step_writes_has_data; [elem|done..].
Qed.

Lemma step_writes_has_cells w w' :
  step_writes w w' → has_cells w → has_cells w'.
Proof.
  intros H [Ht Hs]. split; [by eapply step_writes_has_structure|].
  eapply step_writes_has_data; [elem|done..].
Qed.

Lemma step_writes_has_force_sets w w' :
  step_writes w w' → has_force_sets w → has_force_sets w'.
Proof.
  intros H [Ht Hs]. split; [by eapply step_writes_has_cells|].
  eapply step_writes_has_data; [elem|done..].
Qed.

Lemma set_default_outputs_returns i w :
  has_force_sets w → is_Ok (set_default_outputs i w).
Proof.
  intros [[[Ht [s Hs]] _] [fs Hfs]].
  unfold set_default_outputs, ctx_data, ctx_get. simpl. rewrite Hs. simpl.
  rewrite Hfs. simpl.
  destruct (ctx w !! "nac_data") as [v|] eqn:E; [|by eexists].
  destruct (entry_kind_data "nac_data" v) as [d ->];
    [elem|by apply (Ht _ _ E)|].
  by eexists.
Qed.

Lemma prepare_phonopy_inputs_returns i w :
  has_cells w → is_Ok (prepare_phonopy_inputs i w).
Proof.
  intros [_ [p Hp]]. unfold prepare_phonopy_inputs, ctx_data, ctx_get.
  rewrite Hp. by eexists.
Qed.

Lemma remote_steps_triple i :
  triple i has_force_sets
    [("create_phonopy_builder", create_phonopy_builder);
     ("run_phonopy_remote", run_phonopy_remote);
     ("collect_data", collect_data)]
    (λ _, True).
Proof.
  apply (triple_cons i _
           (λ w, ∃ b, ctx w !! "phonopy_builder" = Some (VBuilder b))).
  { intros w _. destruct (create_phonopy_builder i w) as [w'|] eqn:E;
      [|elem].
    unfold create_phonopy_builder in E. inv_result; eexists; simpl;
      by rewrite lookup_insert_eq. }
  apply (triple_cons i _ (λ _, True)).
  { intros w [b Hb]. unfold run_phonopy_remote, ctx_builder, ctx_get.
    by rewrite Hb. }
  apply triple_step. intros w _. destruct (collect_data i w); [done|elem].
Qed.

Lemma schedule_triple i :
  triple i (λ w, w = initial) (schedule i PhononPhonopy_outline) (λ _, True).
Proof.
  rewrite schedule_PhononPhonopy_steps.
  apply (triple_app i _ ctx_typed).
  { apply triple_step. intros w ->.
    destruct (check_settings i initial) as [w'|] eqn:E; [|elem].
    eapply step_writes_typed; [by eapply check_settings_writes|done]. }
  apply (triple_app i _ ctx_typed).
  { apply triple_if; [|done]. apply triple_step. intros w Hw.
    destruct (optimize i w) as [w'|] eqn:E; [|done].
    eapply step_writes_typed; [by eapply optimize_writes|done]. }
  apply (triple_app i _ has_force_sets).
  { apply (triple_cons i _ has_structure).
    { intros w Hw. destruct (set_unitcell i w) as [w'|] eqn:E; [|elem].
      pose proof (set_unitcell_writes i w w' E) as Hwr.
      split; [by eapply step_writes_typed|].
      apply ctx_typed_has_data; [elem|by eapply step_writes_typed|].
      unfold set_unitcell in E. inv_result; simpl;
        by rewrite lookup_insert_eq. }
    apply (triple_cons i _
             (λ w, has_cells w
                   ∧ is_Ok (run_force_and_nac_calculations i w))).
    { intros w Hw.
      destruct (create_displacements i w) as [w'|] eqn:E; [|elem].
      pose proof (create_displacements_writes i w w' E) as Hwr.
      destruct (forces_pipeline_run i w w' E) as (w2 & Hrun).
      split; [|by exists w2].
      split; [by eapply step_writes_has_structure|].
      apply create_displacements_cells in E as (? & ? & Hprim & _).
      by eexists. }
    apply (triple_cons i _ has_cells).
    { intros w [Hw [w' Hrun]]. rewrite Hrun.
      eapply step_writes_has_cells; [|done].
      by eapply run_force_and_nac_calculations_writes. }
    apply triple_step. intros w Hw.
    destruct (create_force_sets i w) as [w'|] eqn:E; [|elem].
    pose proof (create_force_sets_writes i w w' E) as Hwr.
    split; [by eapply step_writes_has_cells|].
    apply ctx_typed_has_data;
      [elem|by eapply step_writes_typed, Hw|].
    unfold create_force_sets in E. inv_result; simpl;
      by rewrite lookup_insert_eq. }
  apply (triple_app i _ has_force_sets).
  { apply triple_if; [|done]. apply triple_step. intros w Hw.
    destruct (create_nac_params i w) as [w'|] eqn:E; [|elem].
    eapply step_writes_has_force_sets; [|done].
    by eapply create_nac_params_writes. }
  apply (triple_app i _ has_force_sets).
  { apply (triple_cons i _ has_force_sets).
    { intros w Hw. destruct (set_default_outputs_returns i w Hw) as [w' E].
      rewrite E. eapply step_writes_has_force_sets; [|done].
      by eapply set_default_outputs_writes. }
    apply triple_step. intros w Hw.
    destruct (prepare_phonopy_inputs_returns i w (proj1 Hw)) as [w' E].
    rewrite E. eapply step_writes_has_force_sets; [|done].
    by eapply prepare_phonopy_inputs_writes. }
  apply triple_if; [|done]. destruct (in_remote_phonopy i).
  - apply remote_steps_triple.
  - apply triple_step. intros w _.
    destruct (run_phonopy_in_workchain i w); [done|elem].
Qed.

(** X16: a run of the workchain from its start that an exception ends has
    stopped in [check_settings], [set_unitcell], [create_displacements],
    [create_force_sets], [create_nac_params], [create_phonopy_builder],
    [collect_data] or [run_phonopy_in_workchain]: the last step started is
    one of these.  Each of [optimize], [run_force_and_nac_calculations],
    [set_default_outputs], [prepare_phonopy_inputs] and [run_phonopy_remote]
    finds in the context what it reads there, left by the steps before it,
    and, the submissions and the search of the band path returning,
    returns. *)
Theorem run_raises_in (i : Inputs) tr e :
  run i PhononPhonopy_outline initial = (tr, Raise e) →
  ∃ name, last tr = Some name ∧ name ∈ fallible_steps.
Proof.
  intros H. rewrite run_schedule in H.
  pose proof (schedule_triple i [] initial eq_refl) as Ht.
  by rewrite H in Ht.
Qed.

(** *** The first step *)

Lemma run_steps_cons i tr w name step sch :
  foldl (run_step i) (tr, Ok w) ((name, step) :: sch)
  = foldl (run_step i) (tr ++ [name], step i w) sch.
Proof. reflexivity. Qed.



(** *** The outputs of a run *)

(** From a state with [P], the steps [sch], when they all return, leave a
    state with [Q]. *)
Definition hoare (i : Inputs) (P : State → Prop)
    (sch : list (string * (Inputs → State → result State)))
    (Q : State → Prop) : Prop :=
  ∀ tr w w', P w → (foldl (run_step i) (tr, Ok w) sch).2 = Ok w' → Q w'.

Lemma hoare_nil i (P Q : State → Prop) :
  (∀ w, P w → Q w) → hoare i P [] Q.
Proof. intros H tr w w' Hw [= <-]. by apply H. Qed.

Lemma hoare_app i (P Q R : State → Prop) l1 l2 :
  hoare i P l1 Q → hoare i Q l2 R → hoare i P (l1 ++ l2) R.
Proof.
  intros H1 H2 tr w w' Hw H. rewrite foldl_app in H.
  destruct (foldl (run_step i) (tr, Ok w) l1) as [tr1 [w1|e]] eqn:E.
  - eapply H2; [|exact H]. apply (H1 tr w w1 Hw). by rewrite E.
  - by rewrite foldl_run_step_raise in H.
Qed.

Lemma hoare_step i (P Q : State → Prop) name step :
  (∀ w w', P w → step i w = Ok w' → Q w') → hoare i P [(name, step)] Q.
Proof.
  intros H tr w w' Hw Hrun. rewrite run_steps_cons in Hrun. simpl in Hrun.
  by apply (H w w').
Qed.

Lemma hoare_cons i (P Q R : State → Prop) name step l :
  (∀ w w', P w → step i w = Ok w' → Q w') →
  hoare i Q l R → hoare i P ((name, step) :: l) R.
Proof.
  intros H1 H2. apply (hoare_app i P Q R [(name, step)] l); [|done].
  by apply hoare_step.
Qed.

(** The labels of the outputs attached so far. *)
Definition outputs_are (L : list string) (w : State) : Prop :=
  dom (outputs w) = (list_to_set L : gset string).

Lemma outputs_are_out L label d w :
  outputs_are L w → outputs_are (label :: L) (out label d w).
Proof. unfold outputs_are. simpl. intros <-. apply dom_insert_L. Qed.

Lemma run_force_and_nac_calculations_frame i w w' :
  run_force_and_nac_calculations i w = Ok w' →
  outputs w' = outputs w
  ∧ ∀ name, (∀ k, name ≠ structure_label k) → name ≠ "born_and_epsilon" →
      ctx w' !! name = ctx w !! name.
Proof.
  intros H. unfold run_force_and_nac_calculations in H.
  apply bind_Ok in H as (disp & _ & H). apply bind_Ok in H as (w1 & Hloop & H).
  assert (outputs w1 = outputs w
          ∧ ∀ name, (∀ k, name ≠ structure_label k) →
              ctx w1 !! name = ctx w !! name) as [Ho Hc].
  { apply (for_each_invariant
             (λ s, outputs s = outputs w
                   ∧ ∀ name, (∀ k, name ≠ structure_label k) →
                       ctx s !! name = ctx w !! name) _ _) in Hloop;
      [done| |done].
    intros k s s' Hs [Ho Hc]. apply bind_Ok in Hs as (c & _ & Hs).
    injection Hs as <-. simpl. split; [done|].
    intros name Hname. rewrite lookup_insert_ne by done. by apply Hc. }
  destruct (in_is_nac i).
  - apply bind_Ok in H as (p & _ & H). injection H as <-. simpl.
    split; [done|]. intros name Hname Hne.
    rewrite lookup_insert_ne by done. by apply Hc.
  - injection H as <-. split; [done|]. intros name Hname _. by apply Hc.
Qed.

Lemma nac_data_no_label k : "nac_data" ≠ structure_label k.
Proof. by destruct (structure_label_head k) as [t ->]. Qed.

(** The outputs attached in a run that no exception ends, by the inputs. *)
Definition run_outputs (i : Inputs) : list string :=
  ["final_structure"; "force_sets"]
  ++ (if in_optimize i then ["optimized_data"] else [])
  ++ (if in_is_nac i then ["nac_data"] else [])
  ++ (if in_run_phonopy i then phonon_outputs else []).

Lemma schedule_outputs i :
  hoare i (λ w, w = initial) (schedule i PhononPhonopy_outline)
    (outputs_are
       ((if in_run_phonopy i
         then ["band_structure"; "dos"; "thermal_properties"; "force_constants"]
         else [])
        ++ (if in_is_nac i then ["nac_data"] else [])
        ++ ["force_sets"; "final_structure"]
        ++ (if in_optimize i then ["optimized_data"] else []))).
Proof.
  rewrite schedule_PhononPhonopy_steps.
  set (Lopt := if in_optimize i then ["optimized_data"] else []).
  set (Lnac := if in_is_nac i then ["nac_data"] else []).
  (* check_settings *)
  apply (hoare_app i _
           (λ w, outputs_are [] w ∧ ctx w !! "optimized" = None
                 ∧ ctx w !! "nac_data" = None)).
  { apply hoare_step. intros w w' -> H.
    apply check_settings_Ok_inv in H as (? & ? & _ & _ & _ & _ & ->).
    split; [|by split]. unfold outputs_are. simpl. apply dom_empty_L. }
  (* optimize *)
  apply (hoare_app i _
           (λ w, outputs_are [] w
                 ∧ (is_Some (ctx w !! "optimized") ↔ in_optimize i = true)
                 ∧ ctx w !! "nac_data" = None)).
  { destruct (in_optimize i).
    - apply hoare_step. intros w w' (Ho & _ & Hn) H. unfold optimize in H.
      injection H as <-. simpl. split; [done|].
      split; [|by rewrite lookup_insert_ne].
      rewrite lookup_insert_eq. split; [done|by eexists].
    - apply hoare_nil. intros w (Ho & Hopt & Hn). split; [done|].
      split; [|done]. rewrite Hopt. split; [by intros [? [=]]|done]. }
  (* set_unitcell ... create_force_sets *)
  apply (hoare_app i _
           (λ w, outputs_are Lopt w ∧ ctx w !! "nac_data" = None)).
  { apply (hoare_cons i _
             (λ w, outputs_are Lopt w ∧ ctx w !! "nac_data" = None)).
    { intros w w' (Ho & Hopt & Hn) H. subst Lopt.
      destruct (ctx w !! "optimized") as [v|] eqn:E.
      - apply set_unitcell_optimized in H as (p & s & d & _ & _ & _ & ->);
          [|by rewrite E].
        rewrite (proj1 Hopt) by eauto.
        split; [apply outputs_are_out; exact Ho|].
        simpl. by rewrite lookup_insert_ne.
      - rewrite set_unitcell_not_optimized in H by done. injection H as <-.
        destruct (in_optimize i).
        + destruct (proj2 Hopt eq_refl) as [? [=]].
        + split; [exact Ho|]. simpl. by rewrite lookup_insert_ne. }
    apply (hoare_cons i _
             (λ w, outputs_are Lopt w ∧ ctx w !! "nac_data" = None)).
    { intros w w' [Ho Hn] H.
      apply create_displacements_Ok_inv in H
        as (? & ? & ? & ? & ? & ? & ? & ? & ? & _ & _ & _ & _ & _ & _ & _ & ->).
      split; [exact Ho|]. simpl. by rewrite !lookup_insert_ne. }
    apply (hoare_cons i _
             (λ w, outputs_are Lopt w ∧ ctx w !! "nac_data" = None)).
    { intros w w' [Ho Hn] H.
      apply run_force_and_nac_calculations_frame in H as [Ho' Hc].
      unfold outputs_are. rewrite Ho'. split; [done|].
      rewrite Hc; [done|apply nac_data_no_label|done]. }
    apply hoare_step. intros w w' [Ho Hn] H. unfold create_force_sets in H.
    inv_result. split; [exact Ho|]. simpl. by rewrite lookup_insert_ne. }
  (* create_nac_params *)
  apply (hoare_app i _
           (λ w, outputs_are Lopt w
                 ∧ (is_Some (ctx w !! "nac_data") ↔ in_is_nac i = true))).
  { destruct (in_is_nac i).
    - apply hoare_step. intros w w' [Ho Hn] H. unfold create_nac_params in H.
      inv_result. split; [exact Ho|]. simpl. rewrite lookup_insert_eq.
      split; [done|by eexists].
    - apply hoare_nil. intros w [Ho Hn]. split; [done|]. rewrite Hn.
      split; [by intros [? [=]]|done]. }
  (* set_default_outputs, prepare_phonopy_inputs *)
  apply (hoare_app i _
           (outputs_are (Lnac ++ ["force_sets"; "final_structure"] ++ Lopt))).
  { apply (hoare_cons i _
             (outputs_are (Lnac ++ ["force_sets"; "final_structure"] ++ Lopt))).
    { intros w w' [Ho Hn] H. subst Lnac. unfold set_default_outputs in H.
      apply bind_Ok in H as (s & _ & H). apply bind_Ok in H as (fs & _ & H).
      cbn [ctx out] in H.
      destruct (ctx w !! "nac_data") as [v|] eqn:E.
      - apply bind_Ok in H as (nac & _ & H). injection H as <-.
        rewrite (proj1 Hn) by eauto. do 3 apply outputs_are_out. exact Ho.
      - injection H as <-. destruct (in_is_nac i).
        + destruct (proj2 Hn eq_refl) as [? [=]].
        + do 2 apply outputs_are_out. exact Ho. }
    apply hoare_step. intros w w' Ho H. unfold prepare_phonopy_inputs in H.
    inv_result. exact Ho. }
  (* the phonon properties *)
  destruct (in_run_phonopy i); [|by apply hoare_nil].
  destruct (in_remote_phonopy i).
  - apply (hoare_cons i _
             (outputs_are (Lnac ++ ["force_sets"; "final_structure"] ++ Lopt))).
    { intros w w' Ho H. unfold create_phonopy_builder in H.
      inv_result; exact Ho. }
    apply (hoare_cons i _
             (outputs_are (Lnac ++ ["force_sets"; "final_structure"] ++ Lopt))).
    { intros w w' Ho H. unfold run_phonopy_remote in H. inv_result; exact Ho. }
    apply hoare_step. intros w w' Ho H. unfold collect_data in H.
    inv_result. do 4 apply outputs_are_out. exact Ho.
  - apply hoare_step. intros w w' Ho H. unfold run_phonopy_in_workchain in H.
    inv_result; do 4 apply outputs_are_out; exact Ho.
Qed.

(** X18: the outputs of a run of the workchain from its start that no
    exception ends are exactly ['final_structure'] and ['force_sets'],
    ['optimized_data'] if the input [optimize] is true, ['nac_data'] if the
    input [is_nac] is true, and the force constants, thermal properties, DOS
    and band structure if the input [run_phonopy] is true. *)
Theorem run_attaches (i : Inputs) (w' : State) :
  (run i PhononPhonopy_outline initial).2 = Ok w' →
  ∀ label, is_Some (outputs w' !! label) ↔ label ∈ run_outputs i.
Proof.
  intros H label. rewrite run_schedule in H.
  pose proof (schedule_outputs i [] initial w' eq_refl H) as Hdom.
  rewrite <- elem_of_dom, Hdom, elem_of_list_to_set.
  unfold run_outputs, phonon_outputs.
  destruct (in_run_phonopy i), (in_is_nac i), (in_optimize i); cbn [app];
    (split; intros Hl;
     repeat (apply elem_of_cons in Hl as [->|Hl]; [elem|]);
     by apply not_elem_of_nil in Hl).
Qed.

End PhononPhonopy.

(** *** A concrete instance

    Floats written as decimal numbers, nodes and datasets named by strings,
    and a backend that answers every call: two displaced supercells, forces
    for each, and results for the optimization and the remote phonopy
    calculation. *)

Record decimal := { mantissa : Z; exponent : Z }.

Definition decimal_of_int (n : Z) : decimal :=
  {| mantissa := n; exponent := 0 |}.

Abbreviation xState := (@State decimal string string).
Abbreviation xInputs := (@Inputs decimal string).

Definition x_forces (k : Z) : @ndarray decimal :=
  {| shape := [1; 3];
     data := FloatData [ {| mantissa := k; exponent := -3 |};
                         decimal_of_int 0; decimal_of_int 0 ] |}.

Definition x_submit_OptimizeStructure (s settings : string) (p : decimal)
    : @process decimal string string :=
  {| proc_inputs := {["structure" := DNode s]};
     proc_outputs :=
       <["optimized_structure" := DNode "relaxed cell"]>
         {["optimized_structure_data" := DParams {["energy" := PInt (-7)]}]} |}.

Definition x_phonopy_displacements
    (s : @datanode decimal string string) (smat pmat symprec distance : @pyval decimal)
    : result (string * string * list string) :=
  Ok ("primitive cell", "two displacements", ["supercell 0"; "supercell 1"]).

Definition x_submit_calculation
    (s : @datanode decimal string string) (settings calc_type : string)
    : @process decimal string string :=
  {| proc_inputs := {["structure" := s]};
     proc_outputs :=
       if decide (calc_type = "forces")
       then {["output_forces" := DArrays {["final" := x_forces 5]}]}
       else <["output_born_charges" := DNode "born charges"]>
              {["output_dielectrics" := DNode "dielectrics"]} |}.

Definition x_get_nac_from_data (born eps s : @datanode decimal string string)
    : string := "nac data".

Definition x_get_path_using_seekpath (s : @datanode decimal string string)
    (band_resolution : nat) : string := "band paths".

Definition x_Code_get_from_string (code_string : string) : result string :=
  Ok ("code " +:+ code_string).

Definition x_submit_builder (b : @builder decimal string string)
    : @process decimal string string :=
  {| proc_inputs := ∅;
     proc_outputs :=
       <["force_constants" := DNode "force constants"]>
         (<["thermal_properties" := DNode "thermal properties"]>
            (<["dos" := DNode "dos"]>
               {["band_structure" := DNode "band structure"]})) |}.

Definition x_phonopy_properties
    (s : @datanode decimal string string) (settings : gmap string (@pyval decimal))
    (source : @datanode decimal string string + @datanode decimal string string)
    (nac : option (@datanode decimal string string))
    (bands : @datanode decimal string string)
    : result (@datanode decimal string string * @datanode decimal string string
              * @datanode decimal string string * @datanode decimal string string) :=
  Ok (DNode "force constants", DNode "thermal properties", DNode "dos",
      DNode "band structure").

(** The outline with this backend. *)
Definition x_outline : list (@instr decimal string string) :=
  PhononPhonopy_outline decimal_of_int x_submit_OptimizeStructure
    x_phonopy_displacements x_submit_calculation x_get_nac_from_data
    x_get_path_using_seekpath x_Code_get_from_string x_submit_builder
    x_phonopy_properties.

(** Inputs: a supercell of 2x2x2 given as three numbers, and the defaults
    of [define] but for the three flags. *)
Definition x_inputs (supercell : @ndarray decimal)
    (optimize run_phonopy remote_phonopy : bool) : xInputs :=
  {| in_structure := "unit cell";
     in_cell_matrices := {["supercell_matrix" := supercell]};
     in_calculator_settings := "calculator settings";
     in_code_string := Some "phonopy@localhost";
     in_options := Some ∅;
     in_phonon_settings := None;
     in_is_nac := false;
     in_optimize := optimize;
     in_pressure := decimal_of_int 0;
     in_distance := {| mantissa := 1; exponent := -2 |};
     in_symmetry_tolerance := {| mantissa := 1; exponent := -5 |};
     in_run_phonopy := run_phonopy;
     in_remote_phonopy := remote_phonopy |}.

Definition x_supercell : @ndarray decimal :=
  {| shape := [3]; data := IntData [2; 2; 2]%Z |}.

(** The same three numbers as floats. *)
Definition x_float_supercell : @ndarray decimal :=
  {| shape := [3];
     data := FloatData [decimal_of_int 2; decimal_of_int 2; decimal_of_int 2] |}.

Example x_run_default :
  (run (x_inputs x_supercell true false false) x_outline initial).1
  = ["check_settings"; "optimize"; "set_unitcell"; "create_displacements";
     "run_force_and_nac_calculations"; "create_force_sets";
     "set_default_outputs"; "prepare_phonopy_inputs"]
  ∧ is_Ok (run (x_inputs x_supercell true false false) x_outline initial).2.
Proof. split; [vm_compute; reflexivity|]. eexists. vm_compute. reflexivity. Qed.

Example x_run_remote :
  (run (x_inputs x_supercell false true true) x_outline initial).1
  = ["check_settings"; "set_unitcell"; "create_displacements";
     "run_force_and_nac_calculations"; "create_force_sets";
     "set_default_outputs"; "prepare_phonopy_inputs";
     "create_phonopy_builder"; "run_phonopy_remote"; "collect_data"]
  ∧ is_Ok (run (x_inputs x_supercell false true true) x_outline initial).2.
Proof. split; [vm_compute; reflexivity|]. eexists. vm_compute. reflexivity. Qed.

Example x_run_local :
  (run (x_inputs x_supercell false true false) x_outline initial).1
  = ["check_settings"; "set_unitcell"; "create_displacements";
     "run_force_and_nac_calculations"; "create_force_sets";
     "set_default_outputs"; "prepare_phonopy_inputs";
     "run_phonopy_in_workchain"]
  ∧ is_Ok (run (x_inputs x_supercell false true false) x_outline initial).2.
Proof. split; [vm_compute; reflexivity|]. eexists. vm_compute. reflexivity. Qed.

(** A supercell matrix of floats ends the run in its first step. *)
Example x_run_float_supercell :
  run (x_inputs x_float_supercell true true false) x_outline initial
  = (["check_settings"],
     Raise (TypeError "supercell_matrix is not integer matrix.")).
Proof. vm_compute. reflexivity. Qed.


(** The claim of C3 has the derivation of the phonon properties in every
    run.  With [run_phonopy] false (its default) the run ends after the
    force sets: no step of that stage is started and none of its outputs is
    attached. *)
Lemma outline_stage_order_counterexample :
  omap stage_of
    (run (x_inputs x_supercell true false false) x_outline initial).1
  = [SettingsCheck; StructureOptimization; DisplacementGeneration;
     ForceCalculations; ForceSetAssembly]
  ∧ ∃ w', (run (x_inputs x_supercell true false false) x_outline initial).2
          = Ok w'
          ∧ dom (outputs w')
            = ({["optimized_data"; "final_structure"; "force_sets"]} : gset string).
Proof.
  split; [vm_compute; reflexivity|]. eexists. split; [vm_compute; reflexivity|].
  vm_compute. reflexivity.
Qed.

(** **** [check_settings] on these inputs *)

Definition x_diag_supercell : @ndarray decimal :=
  {| shape := [3; 3]; data := IntData [2; 0; 0; 0; 2; 0; 0; 0; 2]%Z |}.

Lemma x_check_settings_Ok :
  check_settings decimal_of_int (x_inputs x_supercell true false false)
    (initial : xState)
  = Ok (set_ctx "phonon_settings"
          (VData (DParams
             (phonon_settings_of decimal_of_int
                (x_inputs x_supercell true false false) x_diag_supercell)))
          initial).
Proof. vm_compute. reflexivity. Qed.





Lemma check_settings_type_error_witness :
  check_settings decimal_of_int (x_inputs x_float_supercell true true true)
    (initial : xState)
  = Raise (TypeError "supercell_matrix is not integer matrix.")
  ∧ ¬ ∃ msg, check_settings decimal_of_int
               (x_inputs x_float_supercell true true true) (initial : xState)
             = Raise (RuntimeError msg).
Proof.
  destruct (check_settings_type_error decimal_of_int
              (x_inputs x_float_supercell true true true) (initial : xState)
              x_float_supercell) as (Ht & _ & Hn).
  - vm_compute. reflexivity.
  - reflexivity.
  - split; [|exact Hn]. apply Ht. intros (_ & H1 & _). by apply H1.
Defined.

(** The same three floats in three dimensions: [np.diag] raises before the
    dtype is tested. *)
Example x_check_settings_three_dimensions :
  check_settings decimal_of_int
    (x_inputs {| shape := [1; 1; 3];
                 data := FloatData [decimal_of_int 2; decimal_of_int 2;
                                    decimal_of_int 2] |} true false false)
    (initial : xState)
  = Raise (ValueError "Input must be 1- or 2-d.").
Proof. vm_compute. reflexivity. Qed.

(** The claim of C5 says that a supercell matrix that is not of integer
    dtype makes [check_settings] raise [RuntimeError]. *)
Lemma check_settings_type_error_counterexample :
  in_cell_matrices (x_inputs x_float_supercell true false false)
    !! "supercell_matrix" = Some x_float_supercell
  ∧ is_integer x_float_supercell = false
  ∧ ¬ ∃ msg, check_settings decimal_of_int
               (x_inputs x_float_supercell true false false) (initial : xState)
             = Raise (RuntimeError msg).
Proof.
  split; [vm_compute; reflexivity|]. split; [reflexivity|].
  intros [msg H]. vm_compute in H. done.
Qed.

(** **** [create_force_sets] and [create_phonopy_builder] on states of the
    run *)

Definition x_disp : @disp_dataset string string :=
  {| data_sets := "two displacements";
     number_of_displacements := 2;
     structures :=
       <["structure_0" := "supercell 0"]> {["structure_1" := "supercell 1"]} |}.

(** After [run_force_and_nac_calculations]. *)
Definition x_calculated : xState :=
  {| ctx :=
       <["disp_dataset" := VDisp x_disp]>
         (<["structure_0" :=
              VProcess (x_submit_calculation (DNode "supercell 0")
                          "calculator settings" "forces")]>
            {["structure_1" :=
                VProcess (x_submit_calculation (DNode "supercell 1")
                            "calculator settings" "forces")]});
     outputs := ∅ |}.

Lemma x_calculated_done k :
  k < number_of_displacements x_disp → calculation_done x_calculated k.
Proof.
  intros Hk. destruct k as [|[|k]]; [| |simpl in Hk; lia];
    (eexists; split; [vm_compute; reflexivity|]);
    intros d Hd; vm_compute in Hd; injection Hd as <-; eauto.
Qed.

Lemma create_force_sets_spec_witness :
  create_force_sets (x_inputs x_supercell true false false) x_calculated
  = Ok (set_ctx "force_sets"
          (VData (DForceSets
             {| fs_data_sets := "two displacements";
                fs_forces := [x_forces 5; x_forces 5] |}))
          x_calculated).
Proof.
  destruct (create_force_sets_spec (x_inputs x_supercell true false false)
              x_calculated x_disp) as [_ H].
  - vm_compute. reflexivity.
  - exact x_calculated_done.
  - rewrite H by (vm_compute; reflexivity). vm_compute. reflexivity.
Defined.

(** One calculation without forces: the step raises. *)
Example x_create_force_sets_raises :
  create_force_sets (x_inputs x_supercell true false false)
    (set_ctx "structure_1"
       (VProcess {| proc_inputs := ∅; proc_outputs := ∅ |}) x_calculated)
  = Raise (RuntimeError "Forces could not be retrieved.").
Proof. vm_compute. reflexivity. Qed.

(** Before [create_phonopy_builder], in a run without NAC. *)
Definition x_prepared : xState :=
  {| ctx :=
       <["final_structure" := VData (DNode "unit cell")]>
         (<["phonon_settings" := VData (DParams {["mesh" := PInt 20]})]>
            (<["force_sets" :=
                 VData (DForceSets
                   {| fs_data_sets := "two displacements";
                      fs_forces := [x_forces 5; x_forces 5] |})]>
               {["band_paths" := VData (DNode "band paths")]}));
     outputs := ∅ |}.

Lemma x_prepared_data name : data_if_present x_prepared name.
Proof.
  intros v Hv. unfold x_prepared in Hv. simpl in Hv.
  repeat (apply lookup_insert_Some in Hv as [[_ <-]|[_ Hv]]; [eauto|]).
  apply lookup_singleton_Some in Hv as [_ <-]. eauto.
Qed.

Lemma create_phonopy_builder_spec_witness :
  create_phonopy_builder x_Code_get_from_string
    (x_inputs x_supercell false true true) x_prepared
  = Ok (set_ctx "phonopy_builder"
          (VBuilder
             {| b_code := "code phonopy@localhost";
                b_structure := DNode "unit cell";
                b_parameters := DParams {["mesh" := PInt 20]};
                b_options := ∅;
                b_force_constants := None;
                b_force_sets :=
                  Some (DForceSets
                          {| fs_data_sets := "two displacements";
                             fs_forces := [x_forces 5; x_forces 5] |});
                b_nac_data := None;
                b_bands := Some (DNode "band paths") |}) x_prepared).
Proof.
  destruct (proj2 (create_phonopy_builder_spec x_Code_get_from_string
                     (x_inputs x_supercell false true true) x_prepared)
              "phonopy@localhost" "code phonopy@localhost"
              (DNode "unit cell") (DParams {["mesh" := PInt 20]}) ∅)
    as [_ H]; try apply x_prepared_data.
  - vm_compute. reflexivity.
  - vm_compute. reflexivity.
  - vm_compute. reflexivity.
  - vm_compute. reflexivity.
  - vm_compute. reflexivity.
  - rewrite H.
    + vm_compute. reflexivity.
    + left. eexists. vm_compute. reflexivity.
Defined.

(** Neither force sets nor force constants: the step raises. *)
Example x_create_phonopy_builder_raises :
  create_phonopy_builder x_Code_get_from_string
    (x_inputs x_supercell false true true)
    ({| ctx := <["final_structure" := VData (DNode "unit cell")]>
                 {["phonon_settings" := VData (DParams ∅)]};
        outputs := ∅ |} : xState)
  = Raise (RuntimeError "Force sets and force constants were not found.").
Proof. vm_compute. reflexivity. Qed.

(** The claim of C7 has [create_phonopy_builder] complete whenever the
    force sets or the force constants are in the context.  The code is
    looked up first (line 290): with a code string that names no code the
    step raises, force sets or not. *)
Definition x_Code_not_found (code_string : string) : result string :=
  Raise (NotExistent code_string).

Lemma create_phonopy_builder_spec_counterexample :
  is_Some (ctx x_prepared !! "force_sets")
  ∧ create_phonopy_builder x_Code_not_found
      (x_inputs x_supercell false true true) x_prepared
    = Raise (NotExistent "phonopy@localhost").
Proof. split; [eexists|]; vm_compute; reflexivity. Qed.

(** **** More of [check_settings] on these inputs *)

Lemma check_settings_frame_witness :
  ∃ w' : xState,
    check_settings decimal_of_int (x_inputs x_supercell true false false)
      initial = Ok w'
    ∧ outputs w' = ∅
    ∧ ctx w' !! "final_structure" = None.
Proof.
  eexists. split; [exact x_check_settings_Ok|].
  destruct (check_settings_frame decimal_of_int
              (x_inputs x_supercell true false false) (initial : xState) _
              x_check_settings_Ok) as (Hout & Hctx & _).
  split; [exact Hout|]. rewrite Hctx; done.
Defined.

Lemma check_settings_dtypes_witness :
  ∃ (d : gmap string (@pyval decimal)) smat pmat,
    d !! "supercell_matrix" = Some smat ∧ has_float smat = false
    ∧ d !! "primitive_matrix" = Some pmat ∧ has_int pmat = false.
Proof.
  destruct (check_settings_dtypes decimal_of_int
              (x_inputs x_supercell true false false) (initial : xState) _
              x_check_settings_Ok)
    as (d & smat & pmat & _ & H1 & H2 & H3 & H4).
  exists d, smat, pmat. exact (conj H1 (conj H2 (conj H3 H4))).
Defined.

(** **** The displacements and their calculations, with NAC *)

Definition x_nac_inputs : xInputs :=
  {| in_structure := "unit cell";
     in_cell_matrices := {["supercell_matrix" := x_supercell]};
     in_calculator_settings := "calculator settings";
     in_code_string := None;
     in_options := None;
     in_phonon_settings := None;
     in_is_nac := true;
     in_optimize := false;
     in_pressure := decimal_of_int 0;
     in_distance := {| mantissa := 1; exponent := -2 |};
     in_symmetry_tolerance := {| mantissa := 1; exponent := -5 |};
     in_run_phonopy := false;
     in_remote_phonopy := false |}.

(** After [set_unitcell]. *)
Definition x_settled : xState :=
  set_ctx "final_structure" (VData (DNode "unit cell"))
    (set_ctx "phonon_settings"
       (VData (DParams
          (phonon_settings_of decimal_of_int x_nac_inputs x_diag_supercell)))
       initial).

(** After [create_displacements]. *)
Definition x_displaced : xState :=
  set_ctx "disp_dataset" (VDisp x_disp)
    (set_ctx "primitive_structure" (VData (DNode "primitive cell")) x_settled).

Lemma x_displaced_Ok :
  create_displacements x_phonopy_displacements x_nac_inputs x_settled
  = Ok x_displaced.
Proof. vm_compute. reflexivity. Qed.

Lemma structure_label_1 : structure_label 1 = "structure_1".
Proof. vm_compute. reflexivity. Qed.

Lemma create_displacements_stores_witness :
  ∃ disp : @disp_dataset string string,
    ctx x_displaced !! "disp_dataset" = Some (VDisp disp)
    ∧ number_of_displacements disp = 2
    ∧ structures disp !! "structure_1" = Some "supercell 1".
Proof.
  destruct (create_displacements_stores x_phonopy_displacements x_nac_inputs
              x_settled x_displaced x_displaced_Ok)
    as (d & fs & smat & pmat & symprec & distance & primitive & dataset
        & cells & disp & _ & _ & _ & _ & _ & _ & Hph & _ & Hdisp & _
        & Hn & Hcells & _).
  injection Hph as _ _ <-.
  exists disp. split; [exact Hdisp|]. split; [exact Hn|].
  rewrite <- structure_label_1. exact (Hcells 1).
Defined.

Lemma x_disp_cells k :
  k < number_of_displacements x_disp →
  is_Some (structures x_disp !! structure_label k).
Proof.
  intros Hk. destruct k as [|[|k]]; [| |simpl in Hk; lia];
    eexists; vm_compute; reflexivity.
Qed.

Lemma run_force_and_nac_calculations_submits_witness :
  ∃ w' : xState,
    run_force_and_nac_calculations x_submit_calculation x_nac_inputs
      x_displaced = Ok w'
    ∧ ctx w' !! "structure_1"
      = Some (VProcess (x_submit_calculation (DNode "supercell 1")
                          "calculator settings" "forces"))
    ∧ ctx w' !! "born_and_epsilon"
      = Some (VProcess (x_submit_calculation (DNode "primitive cell")
                          "calculator settings" "nac")).
Proof.
  destruct (run_force_and_nac_calculations_submits x_submit_calculation
              x_nac_inputs x_displaced x_disp)
    as (w' & Hrun & _ & Hforces & Hnac & _).
  - vm_compute. reflexivity.
  - exact x_disp_cells.
  - intros _. exists (DNode "primitive cell"). vm_compute. reflexivity.
  - exists w'. split; [exact Hrun|]. split.
    + rewrite <- structure_label_1. apply Hforces.
      * simpl. lia.
      * vm_compute. reflexivity.
    + destruct (Hnac eq_refl) as (p & Hp & Hborn).
      assert (p = DNode "primitive cell") as <-; [|exact Hborn].
      vm_compute in Hp. by injection Hp as <-.
Defined.

Lemma forces_pipeline_witness :
  ∃ (w2 : xState) disp,
    run_force_and_nac_calculations x_submit_calculation x_nac_inputs
      x_displaced = Ok w2
    ∧ ctx w2 !! "disp_dataset" = Some (VDisp disp)
    ∧ ∀ k, k < number_of_displacements disp → calculation_done w2 k.
Proof.
  destruct (forces_pipeline x_phonopy_displacements x_submit_calculation
              x_nac_inputs x_settled x_displaced x_displaced_Ok)
    as (w2 & disp & Hrun & Hdisp & H).
  exists w2, disp. split; [exact Hrun|]. split; [exact Hdisp|].
  apply H. intros c d Hd. vm_compute in Hd. injection Hd as <-. eauto.
Defined.

(** **** [collect_data] on a finished remote calculation *)

Definition x_collecting : xState :=
  set_ctx "phonon_properties"
    (VProcess
       {| proc_inputs := ∅;
          proc_outputs :=
            <["force_constants" := DNode "force constants"]>
              (<["thermal_properties" := DNode "thermal properties"]>
                 (<["dos" := DNode "dos"]>
                    {["band_structure" := DNode "band structure"]})) |})
    initial.

Lemma collect_data_returns_iff_witness :
  is_Ok (collect_data (x_inputs x_supercell false true true) x_collecting).
Proof.
  eapply (collect_data_returns_iff (x_inputs x_supercell false true true)
            x_collecting).
  - vm_compute. reflexivity.
  - intros label Hl. unfold phonon_outputs in Hl.
    repeat (apply elem_of_cons in Hl as [->|Hl];
            [eexists; vm_compute; reflexivity|]).
    by apply not_elem_of_nil in Hl.
Defined.

(** **** The states of a run *)

(** Before [create_phonopy_builder], in the run with the remote phonopy
    calculation: the state that its first seven steps lead to. *)
Definition x_before_builder : xState :=
  match
    (foldl (run_step (x_inputs x_supercell false true true)) ([], Ok initial)
       (take 7 (schedule (x_inputs x_supercell false true true) x_outline))).2
  with
  | Ok w => w
  | Raise _ => initial
  end.

Lemma x_before_builder_reached :
  reached decimal_of_int x_submit_OptimizeStructure x_phonopy_displacements
    x_submit_calculation x_get_nac_from_data x_get_path_using_seekpath
    x_Code_get_from_string x_submit_builder x_phonopy_properties
    (x_inputs x_supercell false true true) x_before_builder.
Proof. exists 7. vm_compute. reflexivity. Qed.

Definition x_builder : @builder decimal string string :=
  {| b_code := "code phonopy@localhost";
     b_structure := DNode "unit cell";
     b_parameters :=
       DParams (phonon_settings_of decimal_of_int
                  (x_inputs x_supercell false true true) x_diag_supercell);
     b_options := ∅;
     b_force_constants := None;
     b_force_sets :=
       Some (DForceSets {| fs_data_sets := "two displacements";
                           fs_forces := [x_forces 5; x_forces 5] |});
     b_nac_data := None;
     b_bands := Some (DNode "band paths") |}.

Lemma x_builder_Ok :
  create_phonopy_builder x_Code_get_from_string
    (x_inputs x_supercell false true true) x_before_builder
  = Ok (set_ctx "phonopy_builder" (VBuilder x_builder) x_before_builder).
Proof. vm_compute. reflexivity. Qed.

Lemma builder_force_sets_witness :
  ctx x_before_builder !! "force_constants" = None
  ∧ ∃ b fs,
      ctx x_before_builder !! "force_sets" = Some (VData fs)
      ∧ b_force_sets b = Some fs
      ∧ b_force_constants b = None.
Proof.
  destruct (builder_force_sets decimal_of_int x_submit_OptimizeStructure
              x_phonopy_displacements x_submit_calculation x_get_nac_from_data
              x_get_path_using_seekpath x_Code_get_from_string x_submit_builder
              x_phonopy_properties (x_inputs x_supercell false true true)
              x_before_builder _ x_before_builder_reached x_builder_Ok)
    as (Hnone & b & fs & _ & H1 & H2 & H3).
  split; [exact Hnone|]. exists b, fs. exact (conj H1 (conj H2 H3)).
Defined.

(** A backend whose force calculations have no outputs: the run ends in
    [create_force_sets]. *)
Definition x_submit_nothing
    (s : @datanode decimal string string) (settings calc_type : string)
    : @process decimal string string :=
  {| proc_inputs := {["structure" := s]}; proc_outputs := ∅ |}.

Example x_run_no_forces :
  run (x_inputs x_supercell false false false)
    (PhononPhonopy_outline decimal_of_int x_submit_OptimizeStructure
       x_phonopy_displacements x_submit_nothing x_get_nac_from_data
       x_get_path_using_seekpath x_Code_get_from_string x_submit_builder
       x_phonopy_properties)
    initial
  = (["check_settings"; "set_unitcell"; "create_displacements";
      "run_force_and_nac_calculations"; "create_force_sets"],
     Raise (RuntimeError "Forces could not be retrieved.")).
Proof. vm_compute. reflexivity. Qed.

Lemma run_raises_in_witness :
  ∃ name,
    last ["check_settings"; "set_unitcell"; "create_displacements";
          "run_force_and_nac_calculations"; "create_force_sets"] = Some name
    ∧ name ∈ fallible_steps.
Proof.
  exact (run_raises_in decimal_of_int x_submit_OptimizeStructure
           x_phonopy_displacements x_submit_nothing x_get_nac_from_data
           x_get_path_using_seekpath x_Code_get_from_string x_submit_builder
           x_phonopy_properties (x_inputs x_supercell false false false)
           _ _ x_run_no_forces).
Defined.

(** The end of the run with the optimization and the remote phonopy
    calculation. *)
Definition x_final : xState :=
  match (run (x_inputs x_supercell true true true) x_outline initial).2 with
  | Ok w => w
  | Raise _ => initial
  end.

Lemma x_final_Ok :
  (run (x_inputs x_supercell true true true) x_outline initial).2 = Ok x_final.
Proof. vm_compute. reflexivity. Qed.

Lemma run_attaches_witness :
  is_Some (outputs x_final !! "band_structure")
  ∧ is_Some (outputs x_final !! "optimized_data")
  ∧ outputs x_final !! "nac_data" = None.
Proof.
  pose proof (run_attaches decimal_of_int x_submit_OptimizeStructure
                x_phonopy_displacements x_submit_calculation
                x_get_nac_from_data x_get_path_using_seekpath
                x_Code_get_from_string x_submit_builder x_phonopy_properties
                (x_inputs x_supercell true true true) x_final x_final_Ok)
    as H.
  split; [apply H; elem|]. split; [apply H; elem|].
  destruct (outputs x_final !! "nac_data") as [d|] eqn:E; [|done].
  assert (Hin : "nac_data" ∈ run_outputs (x_inputs x_supercell true true true)).
  { apply H. rewrite E. by eexists. }
  not_elem Hin.
Defined.

End Phonon.

(** ** examples/workchains/generate_launchfile_thermal.py *)

Module Launchfile.

Import Stdlib.Strings.Ascii.

(** The characters of a string. *)
Abbreviation chars := String.list_ascii_of_string.

(** The script (lines 12-36) asks for a title, makes the name of the output
    file from it and writes a fixed head of a launch script to the file of
    that name; what follows line 36 is commented out.  The name of the file
    is what this module is about; the title that [input] returns is the
    argument here. *)

(** [s.endswith(suffix)] *)
Definition endswith (s suffix : string) : bool :=
  bool_decide (chars suffix `suffix_of` chars s).

(** [s.replace(old, new)] for an [old] of one character. *)
Fixpoint replace (old : ascii) (new : string) (s : string) : string :=
  match s with
  | EmptyString => EmptyString
  | String c s' =>
      if decide (c = old) then new +:+ replace old new s'
      else String c (replace old new s')
  end.

(** Lines 13-18: the name of the file that is opened. *)
Definition output_title (title : string) : string :=
  let title := if endswith title ".py" then title else title +:+ ".py" in
  replace " "%char "_" title.

Lemma chars_app s1 s2 :
  chars (s1 +:+ s2)
  = chars s1 ++ chars s2.
Proof.
  induction s1 as [|c s1 IH]; [done|].
  change (String c s1 +:+ s2) with (String c (s1 +:+ s2)).
  simpl. by rewrite IH.
Qed.

Lemma chars_inj s1 s2 :
  chars s1 = chars s2 → s1 = s2.
Proof.
  intros H. rewrite <- (String.string_of_list_ascii_of_string s1).
  rewrite <- (String.string_of_list_ascii_of_string s2). by rewrite H.
Qed.

Lemma replace_space s :
  chars (replace " "%char "_" s)
  = (λ c, if decide (c = " "%char) then "_"%char else c)
    <$> chars s.
Proof.
  induction s as [|c s IH]; [done|]. simpl.
  destruct (decide (c = " "%char)).
  - rewrite chars_app. simpl. by rewrite IH.
  - simpl. by rewrite IH.
Qed.

Lemma replace_no_space s :
  " "%char ∉ chars s → replace " "%char "_" s = s.
Proof.
  intros H. apply chars_inj. rewrite replace_space.
  induction (chars s) as [|c l IH]; [done|].
  apply not_elem_of_cons in H as [Hc Hl]. simpl.
  destruct (decide (c = " "%char)); [congruence|]. by rewrite <- (IH Hl) at 2.
Qed.

(** X19: whatever the title entered, the name of the output file ends with
    [.py] and has no space in it; so a name that the script has made is a
    title that it leaves as it is: entering the name of the file written
    before writes that file again. *)
Theorem output_title_form (title : string) :
  endswith (output_title title) ".py" = true
  ∧ (" "%char ∉ chars (output_title title))
  ∧ output_title (output_title title) = output_title title.
Proof.
  assert (Hpy : endswith (output_title title) ".py" = true).
  { apply bool_decide_eq_true. unfold output_title. cbv zeta.
    rewrite replace_space.
    assert (∃ k, chars (if endswith title ".py" then title
                        else title +:+ ".py")
                 = k ++ chars ".py") as [k ->].
    { destruct (endswith title ".py") eqn:E.
      - apply bool_decide_eq_true in E as [k ->]. by exists k.
      - eexists. apply chars_app. }
    rewrite fmap_app. by eexists. }
  assert (Hspace : " "%char ∉ chars (output_title title)).
  { unfold output_title. rewrite replace_space.
    intros (c & Hc & _)%list_elem_of_fmap.
    destruct (decide (c = " "%char)); [done|congruence]. }
  split; [done|]. split; [done|].
  unfold output_title at 1. rewrite Hpy. by apply replace_no_space.
Qed.

(** X20: a title that ends with [.py] and has no space in it is the name of
    the output file, unchanged. *)
Theorem output_title_fixed (title : string) :
  endswith title ".py" = true →
  " "%char ∉ chars title →
  output_title title = title.
Proof.
  intros Hpy Hspace. unfold output_title. rewrite Hpy.
  by apply replace_no_space.
Qed.

Lemma output_title_fixed_witness :
  output_title "launch_thermal.py" = "launch_thermal.py".
Proof.
  apply output_title_fixed.
  - vm_compute. reflexivity.
  - intros H. not_elem H.
Defined.

End Launchfile.
